(** * Product catalog server (src/server.js): uploads directory and product
    store kept in step by the route handlers.

    The development embeds the Express handlers of [src/server.js] as
    functions over an explicit world (the in-memory [db.products], the
    names present in the [uploads] directory multer writes to, the
    records [database.json] holds, and the [uploads] directory beside
    server.js when that is another one) and proves what each handler
    does to it. *)

From Stdlib Require Import Ascii String NArith ZArith.
From stdpp Require Import base decidable option list strings gmap pretty.

Local Open Scope string_scope.
Local Open Scope list_scope.

(** ** JavaScript numbers as far as [parseFloat] makes them

    A finite number is a double; it is written as the exact decimal
    value [(-1)^neg * mant * 10^exp] of that double (every double has
    one), in the normal form where [mant] has no trailing decimal zero
    and zero has exponent 0. [parseFloat] rounds the value of the
    literal it reads to the nearest double. *)

Inductive jsnum : Type :=
  | NaN
  | Infinity (neg : bool)
  | Finite (neg : bool) (mant : N) (exp : Z).

Definition isDecimalDigit (c : ascii) : bool :=
  let n := N_of_ascii c in (48 <=? n)%N && (n <=? 57)%N.

Definition digitValue (c : ascii) : N := (N_of_ascii c - 48)%N.

(** Strings are the UTF-8 bytes of the text. White space and line
    terminators that take one byte: TAB, LF, VT, FF, CR, SP. *)
Definition isWhiteSpace (c : ascii) : bool :=
  let n := N_of_ascii c in
  (n =? 9)%N || (n =? 10)%N || (n =? 11)%N || (n =? 12)%N || (n =? 13)%N
  || (n =? 32)%N.

(** Two bytes: the no-break space U+00A0. *)
Definition isWhiteSpace2 (c1 c2 : ascii) : bool :=
  (N_of_ascii c1 =? 194)%N && (N_of_ascii c2 =? 160)%N.

(** Three bytes: U+1680, U+2000 to U+200A, the line and paragraph
    separators U+2028 and U+2029, U+202F, U+205F, U+3000 and the byte
    order mark U+FEFF. *)
Definition isWhiteSpace3 (c1 c2 c3 : ascii) : bool :=
  let a := N_of_ascii c1 in
  let b := N_of_ascii c2 in
  let c := N_of_ascii c3 in
  (a =? 225)%N && (b =? 154)%N && (c =? 128)%N
  || (a =? 226)%N && (b =? 128)%N
     && ((128 <=? c)%N && (c <=? 138)%N
         || (c =? 168)%N || (c =? 169)%N || (c =? 175)%N)
  || (a =? 226)%N && (b =? 129)%N && (c =? 159)%N
  || (a =? 227)%N && (b =? 128)%N && (c =? 128)%N
  || (a =? 239)%N && (b =? 187)%N && (c =? 191)%N.

(** [TrimString(s, start)]: every leading white space character and line
    terminator is dropped. *)
Fixpoint trimStart (s : string) : string :=
  match s with
  | String c1 r1 =>
      if isWhiteSpace c1 then trimStart r1
      else
        match r1 with
        | String c2 r2 =>
            if isWhiteSpace2 c1 c2 then trimStart r2
            else
              match r2 with
              | String c3 r3 =>
                  if isWhiteSpace3 c1 c2 c3 then trimStart r3 else s
              | EmptyString => s
              end
        | EmptyString => s
        end
  | EmptyString => s
  end.

Fixpoint decimalDigits (s : string) : list N * string :=
  match s with
  | String c r =>
      if isDecimalDigit c
      then let '(ds, rest) := decimalDigits r in (digitValue c :: ds, rest)
      else ([], s)
  | EmptyString => ([], s)
  end.

Definition digitsValue (ds : list N) : N :=
  fold_left (fun acc d => 10 * acc + d)%N ds 0%N.

Definition stripSign (s : string) : bool * string :=
  match s with
  | String "-" r => (true, r)
  | String "+" r => (false, r)
  | _ => (false, s)
  end.

(** ExponentPart: [e] or [E], an optional sign, at least one digit. When
    the digits are missing the exponent is not part of the literal. *)
Definition exponentPart (s : string) : option Z :=
  match s with
  | String c r =>
      if (Ascii.eqb c "e" || Ascii.eqb c "E")%bool
      then
        let '(neg, r') := stripSign r in
        match decimalDigits r' with
        | ([], _) => None
        | (ds, _) =>
            let v := Z.of_N (digitsValue ds) in
            Some (if neg then (- v)%Z else v)
        end
      else None
  | EmptyString => None
  end.

(** The longest prefix that is a StrUnsignedDecimalLiteral other than
    [Infinity]: integer digits, fraction digits and exponent. *)
Definition unsignedLiteral (s : string) : option (list N * list N * Z) :=
  let '(ip, r) := decimalDigits s in
  let integerOnly :=
    match ip with
    | [] => None
    | _ => Some (ip, [], default 0%Z (exponentPart r))
    end in
  match r with
  | String c r1 =>
      if Ascii.eqb c "."
      then
        let '(fp, r2) := decimalDigits r1 in
        match ip, fp with
        | [], [] => None
        | _, _ => Some (ip, fp, default 0%Z (exponentPart r2))
        end
      else integerOnly
  | EmptyString => integerOnly
  end.

(** *** Rounding the value of the literal to a double

    [2 ^ k <= p / q], for [k] of either sign. *)
Definition pow2Le (k : Z) (p q : N) : bool :=
  if (0 <=? k)%Z then (q * 2 ^ Z.to_N k <=? p)%N
  else (q <=? p * 2 ^ Z.to_N (- k))%N.

(** The [k] with [2 ^ k <= p / q < 2 ^ (k + 1)], for positive [p], [q]. *)
Definition floorLog2 (p q : N) : Z :=
  let k := (Z.of_N (N.log2 p) - Z.of_N (N.log2 q))%Z in
  if pow2Le k p q then k else (k - 1)%Z.

(** [num / den] rounded to the nearest whole number, a tie to the even
    one. *)
Definition roundHalfEven (num den : N) : N :=
  let s := (num / den)%N in
  let r := (num mod den)%N in
  if (den <? 2 * r)%N then (s + 1)%N
  else if (2 * r =? den)%N then (if N.odd s then s + 1 else s)%N
  else s.

(** [m * 10 ^ e] with the trailing decimal zeros of [m] moved into the
    exponent; a positive [m] has fewer of them than binary digits. *)
Fixpoint stripZeros (fuel : nat) (m : N) (e : Z) : N * Z :=
  match fuel with
  | O => (m, e)
  | S fuel' =>
      if (m mod 10 =? 0)%N then stripZeros fuel' (m / 10)%N (e + 1)%Z
      else (m, e)
  end.

Definition decimalOfWhole (neg : bool) (m : N) : jsnum :=
  let '(m', e) := stripZeros (N.size_nat m) m 0 in Finite neg m' e.

(** [s / 2 ^ j] in lowest terms: common factors of two are cancelled. *)
Fixpoint halve (s : positive) (j : nat) : positive * nat :=
  match j, s with
  | S j', xO s' => halve s' j'
  | _, _ => (s, j)
  end.

(** The double [s * 2 ^ E] written in decimal: a dyadic fraction
    [odd / 2 ^ j] is [odd * 5 ^ j / 10 ^ j]. *)
Definition fromBinary (neg : bool) (s : N) (E : Z) : jsnum :=
  match s with
  | N0 => Finite neg 0 0
  | Npos ps =>
      if (0 <=? E)%Z then decimalOfWhole neg (s * 2 ^ Z.to_N E)
      else
        let '(odd, j) := halve ps (Z.to_nat (- E)) in
        match j with
        | O => decimalOfWhole neg (Npos odd)
        | S _ => Finite neg (Npos odd * 5 ^ N.of_nat j) (- Z.of_nat j)
        end
  end.

(** The Number value for [m * 10 ^ e]: the nearest double, a tie to the
    even significand. The significand has 53 bits, its unit is
    [2 ^ E] with [E] no smaller than -1074 (below that the doubles are
    subnormal and small values round to zero), and a result of
    [2 ^ 1024] or more is Infinity. *)
Definition toDouble (neg : bool) (m : N) (e : Z) : jsnum :=
  if (m =? 0)%N then Finite neg 0 0
  else
    let p := if (0 <=? e)%Z then (m * 10 ^ Z.to_N e)%N else m in
    let q := if (0 <=? e)%Z then 1%N else (10 ^ Z.to_N (- e))%N in
    let E := Z.max (floorLog2 p q - 52) (-1074) in
    let num := if (0 <=? E)%Z then p else (p * 2 ^ Z.to_N (- E))%N in
    let den := if (0 <=? E)%Z then (q * 2 ^ Z.to_N E)%N else q in
    let s := roundHalfEven num den in
    if (0 <=? E)%Z && (2 ^ 1024 <=? s * 2 ^ Z.to_N E)%N then Infinity neg
    else fromBinary neg s E.

Definition parseFloatString (s : string) : jsnum :=
  let '(neg, u) := stripSign (trimStart s) in
  if String.prefix "Infinity" u then Infinity neg
  else
    match unsignedLiteral u with
    | None => NaN
    | Some (ip, fp, e) =>
        toDouble neg (digitsValue (ip ++ fp)) (e - Z.of_nat (length fp))
    end.

(** [parseFloat(v)] first takes [ToString(v)]; a missing form field is
    [undefined], whose string is ["undefined"]. *)
Definition parseFloat (v : option string) : jsnum :=
  match v with
  | None => parseFloatString "undefined"
  | Some s => parseFloatString s
  end.

(** A string with no numeric prefix: after the leading white space and
    one optional sign comes neither a digit, nor a dot followed by a digit,
    nor the word Infinity. *)
Definition startsNumeric (u : string) : bool :=
  match u with
  | String c r =>
      isDecimalDigit c
      || (Ascii.eqb c "." &&
          match r with String d _ => isDecimalDigit d | EmptyString => false end)
      || String.prefix "Infinity" u
  | EmptyString => false
  end.

Definition nonNumeric (s : string) : Prop :=
  startsNumeric (snd (stripSign (trimStart s))) = false.

(** ** Values, records and requests *)

(** JSON scalars, for the properties of a stored record that no handler
    writes (they can only come from [database.json] at start-up). *)
Inductive jsval : Type :=
  | JNull
  | JBool (b : bool)
  | JNum (n : jsnum)
  | JStr (s : string).

(** A product object. [name] is [None] when the property holds
    [undefined]; [extra] holds every own property other than the five the
    handlers write. Ids are strings, as [Date.now().toString()] makes them,
    and on strings [==] is string equality. *)
Module Product.
Record t : Type := mk {
  id : string;
  name : option string;
  price : jsnum;
  description : string;
  images : list string;
  extra : gmap string jsval
}.
End Product.

(** A path as the handlers hand it to [fs]: [uploads/<name>] against the
    working directory of the process (multer's destination, line 22, and
    so [file.path]), or [path.join(__dirname, 'uploads', name)] against
    the directory that holds server.js (line 163). *)
Inductive path : Type :=
  | InUploads (name : string)
  | InDirnameUploads (name : string).

(** A file as multer hands it to the handler in [req.files], already
    written to [uploads/<filename>]. *)
Module File.
Record t : Type := mk {
  originalname : string;
  mimetype : string;
  size : N;
  filename : string
}.
(** [file.path]: the destination joined with the stored name. *)
Definition path (f : t) : path := InUploads (filename f).
End File.

(** A multipart request after [upload.array('images', 10)]: the text
    fields in [body], the kept list the page sends as [existingImages[]],
    and the stored files. For a multipart request [req.files] is always an
    array, so the guards on [req.files] itself never fire. *)
Record request : Type := mkRequest {
  body : gmap string string;
  existingImages : list string;
  files : list File.t
}.

(** ** What [JSON.stringify] writes of a record

    A number that is NaN or an infinity is written as null, and minus
    zero as 0; a property that holds [undefined] is left out (a name that
    is [None] stays [None]); everything else is written as it is. *)

Definition jsonNumber (x : jsnum) : jsval :=
  match x with
  | NaN | Infinity _ => JNull
  | Finite _ 0 _ => JNum (Finite false 0 0)
  | Finite neg mant exp => JNum (Finite neg mant exp)
  end.

Definition jsonValue (v : jsval) : jsval :=
  match v with
  | JNum x => jsonNumber x
  | _ => v
  end.

(** A record as [database.json] holds it. *)
Module Json.
Record t : Type := mk {
  id : string;
  name : option string;
  price : jsval;
  description : string;
  images : list string;
  extra : gmap string jsval
}.
End Json.

Definition toJSON (p : Product.t) : Json.t :=
  Json.mk (Product.id p) (Product.name p) (jsonNumber (Product.price p))
    (Product.description p) (Product.images p)
    (jsonValue <$> Product.extra p).

(** [JSON.stringify(db, null, 2)], as far as the records go. *)
Definition stringify (l : list Product.t) : list Json.t := toJSON <$> l.

(** ** The upload filter and limits (lines 30-42) *)

Definition fileFilter (f : File.t) : bool :=
  String.prefix "image/" (File.mimetype f).

Definition fileSize : N := 5 * 1024 * 1024.

Definition maxCount : nat := 10.

(** ** The world and the handler monad *)

(** [products] is [db.products]; [uploads] holds the names in the
    directory [uploads] of the working directory, where multer writes and
    the clean-up unlinks; [database_json] is what the file holds, the
    records as the last [saveDatabase] wrote them; [dirnameUploads] is
    [None] when the process was started in the directory that holds
    server.js, so that [__dirname/uploads] is that same directory
    [uploads], and otherwise holds the names in [__dirname/uploads]. *)
Record world : Type := World {
  products : list Product.t;
  uploads : gset string;
  database_json : list Json.t;
  dirnameUploads : option (gset string)
}.

(** The world of a server that was started in its own directory, with the
    store [ps], the uploads [up], and a [database.json] that was written
    from the list [dj]. *)
Definition mkWorld (ps : list Product.t) (up : gset string)
    (dj : list Product.t) : world :=
  World ps up (stringify dj) None.

Inductive outcome (A : Type) : Type :=
  | Return (a : A)
  | Throw (e : string).
Arguments Return {A} a.
Arguments Throw {A} e.

(** A computation runs in a world and either returns or throws; the
    writes made before a throw stay. *)
Definition js (A : Type) : Type := world -> outcome A * world.

Definition ret {A} (a : A) : js A := fun w => (Return a, w).

Definition bind {A B} (m : js A) (k : A -> js B) : js B :=
  fun w =>
    match m w with
    | (Return a, w') => k a w'
    | (Throw e, w') => (Throw e, w')
    end.

Definition throw {A} (e : string) : js A := fun w => (Throw e, w).

Definition tryCatch {A} (m : js A) (h : string -> js A) : js A :=
  fun w =>
    match m w with
    | (Return a, w') => (Return a, w')
    | (Throw e, w') => h e w'
    end.

Notation "x <- m ;; k" := (bind m (fun x => k))
  (at level 100, m at next level, right associativity).
Notation "m ;; k" := (bind m (fun _ => k))
  (at level 100, right associativity).

Fixpoint forEach {A} (l : list A) (f : A -> js unit) : js unit :=
  match l with
  | [] => ret tt
  | x :: r => f x ;; forEach r f
  end.

(** *** File system

    A directory is the set of the names in it. *)

(** The directory a path leads into. *)
Definition directory (p : path) (w : world) : gset string :=
  match p with
  | InUploads _ => uploads w
  | InDirnameUploads _ => default (uploads w) (dirnameUploads w)
  end.

Definition basename (p : path) : string :=
  match p with
  | InUploads name | InDirnameUploads name => name
  end.

(** The world once the entry at [p] is gone. *)
Definition removeEntry (p : path) (w : world) : world :=
  match p, dirnameUploads w with
  | InDirnameUploads name, Some d =>
      World (products w) (uploads w) (database_json w) (Some (d ∖ {[name]}))
  | _, _ =>
      World (products w) (uploads w ∖ {[basename p]}) (database_json w)
        (dirnameUploads w)
  end.

Definition existsSync (p : path) : js bool :=
  fun w => (Return (bool_decide (basename p ∈ directory p w)), w).

Definition unlinkSync (p : path) : js unit :=
  fun w =>
    if decide (basename p ∈ directory p w)
    then (Return tt, removeEntry p w)
    else (Throw "ENOENT", w).

(** What multer's disk storage has done when the handler starts: every
    accepted file is in [uploads] under its generated name. *)
Definition diskStorage (fs : list File.t) : js unit :=
  fun w =>
    (Return tt,
     World (products w) (list_to_set (File.filename <$> fs) ∪ uploads w)
       (database_json w) (dirnameUploads w)).

(** *** The store *)

Definition getProducts : js (list Product.t) :=
  fun w => (Return (products w), w).

Definition setProducts (l : list Product.t) : js unit :=
  fun w =>
    (Return tt, World l (uploads w) (database_json w) (dirnameUploads w)).

(** [fs.writeFileSync('database.json', JSON.stringify(db, null, 2))] *)
Definition saveDatabase : js unit :=
  fun w =>
    (Return tt,
     World (products w) (uploads w) (stringify (products w))
       (dirnameUploads w)).

(** [findIndex(p => p.id == id)]; [None] stands for -1. *)
Definition findIndex (pid : string) (l : list Product.t) : option nat :=
  fst <$> list_find (fun p => Product.id p = pid) l.

(** [find(p => p.id == id)]; [None] stands for [undefined]. *)
Definition find (pid : string) (l : list Product.t) : option Product.t :=
  snd <$> list_find (fun p => Product.id p = pid) l.

(** ** Responses *)

Inductive payload : Type :=
  | PProduct (p : Product.t)
  | PProducts (l : list Product.t)
  | PError (error : string)
  | PMessage (message : string).

Record response : Type := mkResponse {
  status : nat;
  json : payload
}.

(** [!v] on a text field: missing or empty. *)
Definition falsy (v : option string) : bool :=
  match v with
  | None => true
  | Some s => bool_decide (s = "")
  end.

(** [v || ''] *)
Definition orEmpty (v : option string) : string :=
  match v with
  | None => ""
  | Some s => s
  end.

(** [Date.now().toString()] for the clock reading [now]. *)
Definition toString (now : N) : string := pretty now.

(** ** The routes *)

(** GET /api/products (lines 63-65) *)
Definition listProducts : js response :=
  l <- getProducts ;; ret (mkResponse 200 (PProducts l)).

(** GET /api/products/:id (lines 67-74) *)
Definition getProduct (pid : string) : js response :=
  l <- getProducts ;;
  match find pid l with
  | Some product => ret (mkResponse 200 (PProduct product))
  | None => ret (mkResponse 404 (PError "Product not found"))
  end.

(** The handler of POST /api/products (lines 77-107); [now] is what
    [Date.now()] reads. *)
Definition createHandler (now : N) (req : request) : js response :=
  tryCatch
    (let name := body req !! "name" in
     let price := body req !! "price" in
     let description := body req !! "description" in
     if falsy name || falsy price || bool_decide (length (files req) = 0)
     then
       (if bool_decide (0 < length (files req))
        then forEach (files req) (fun file => unlinkSync (File.path file))
        else ret tt) ;;
       ret (mkResponse 400
              (PError "Name, price, and at least one image are required"))
     else
       let images := File.filename <$> files req in
       let newProduct :=
         Product.mk (toString now) name (parseFloat price)
           (orEmpty description) images ∅ in
       l <- getProducts ;;
       setProducts (l ++ [newProduct]) ;;
       saveDatabase ;;
       ret (mkResponse 201 (PProduct newProduct)))
    (fun _ => ret (mkResponse 500 (PError "Internal server error"))).

(** The handler of POST /api/products/:id (lines 111-147). The object
    spread keeps every property of the stored record that the literal does
    not name: the id and [extra]. *)
Definition updateHandler (productId : string) (req : request) : js response :=
  tryCatch
    (let name := body req !! "name" in
     let price := body req !! "price" in
     let description := body req !! "description" in
     l <- getProducts ;;
     match findIndex productId l with
     | None =>
         (if bool_decide (0 < length (files req))
          then forEach (files req) (fun file => unlinkSync (File.path file))
          else ret tt) ;;
         ret (mkResponse 404 (PError "Product not found"))
     | Some productIndex =>
         match l !! productIndex with
         | None => throw "TypeError"
         | Some old =>
             let images := Product.images old in
             let images :=
               if bool_decide (0 < length (files req))
               then images ++ (File.filename <$> files req)
               else images in
             let updatedProduct :=
               Product.mk (Product.id old) name (parseFloat price)
                 (orEmpty description) images (Product.extra old) in
             setProducts (<[productIndex := updatedProduct]> l) ;;
             saveDatabase ;;
             ret (mkResponse 200 (PProduct updatedProduct))
         end
     end)
    (fun _ => ret (mkResponse 500 (PError "Internal server error"))).

(** DELETE /api/products/:id (lines 150-178) *)
Definition deleteProduct (productId : string) : js response :=
  tryCatch
    (l <- getProducts ;;
     match findIndex productId l with
     | None => ret (mkResponse 404 (PError "Product not found"))
     | Some productIndex =>
         match l !! productIndex with
         | None => throw "TypeError"
         | Some product =>
             (if bool_decide (0 < length (Product.images product))
              then
                forEach (Product.images product) (fun image =>
                  let imagePath := InDirnameUploads image in
                  present <- existsSync imagePath ;;
                  if present then unlinkSync imagePath else ret tt)
              else ret tt) ;;
             setProducts (delete productIndex l) ;;
             saveDatabase ;;
             ret (mkResponse 200 (PMessage "Product deleted successfully"))
         end
     end)
    (fun _ => ret (mkResponse 500 (PError "Internal server error"))).

(** POST /api/products: the upload middleware stores the files, then the
    handler runs. *)
Definition createProduct (now : N) (req : request) : js response :=
  diskStorage (files req) ;; createHandler now req.

(** POST /api/products/:id *)
Definition updateProduct (productId : string) (req : request) : js response :=
  diskStorage (files req) ;; updateHandler productId req.

(** ** Preconditions the statements use *)

(** The message of the 400 response (line 87). *)
Definition validationMessage : string :=
  "Name, price, and at least one image are required".


(** The clean-up step for one stored name: [fs.unlinkSync(file.path)]. *)
Definition unlinkUpload (name : string) : js unit :=
  unlinkSync (InUploads name).

(** The process was started in the directory that holds server.js. *)
Definition ownDirectory (w : world) : Prop := dirnameUploads w = None.

(** The world once [names] are gone from [__dirname/uploads]. *)
Definition withoutImages (names : list string) (w : world) : world :=
  match dirnameUploads w with
  | None =>
      World (products w) (uploads w ∖ list_to_set names) (database_json w)
        None
  | Some d =>
      World (products w) (uploads w) (database_json w)
        (Some (d ∖ list_to_set names))
  end.

(** The id resolves, by the handlers' own lookup, to the record [p] stored
    at index [i]. *)
Definition resolves (productId : string) (w : world) (i : nat)
    (p : Product.t) : Prop :=
  findIndex productId (products w) = Some i ∧ products w !! i = Some p.

(** The storage names of a batch are pairwise distinct and new to the
    directory, which is what the naming scheme of lines 24-27 (clock
    reading, random suffix, extension) is there for. *)
Definition freshBatch (fs : list File.t) (w : world) : Prop :=
  NoDup (File.filename <$> fs)
  ∧ Forall (fun n => n ∉ uploads w) (File.filename <$> fs).

Global Instance freshBatch_dec fs w : Decision (freshBatch fs w).
Proof. unfold freshBatch. apply _. Defined.

(** A text field that was not sent, or was sent empty. *)
Definition missingOrEmpty (v : option string) : Prop :=
  v = None ∨ v = Some "".

(** A Create input that passes the check of line 80: a name, a price and
    at least one stored file. *)
Definition validCreate (req : request) : Prop :=
  ¬ missingOrEmpty (body req !! "name")
  ∧ ¬ missingOrEmpty (body req !! "price")
  ∧ files req ≠ [].

(** The record Create builds (lines 92-98). *)
Definition newProduct (now : N) (req : request) : Product.t :=
  Product.mk (toString now) (body req !! "name")
    (parseFloat (body req !! "price"))
    (orEmpty (body req !! "description"))
    (File.filename <$> files req) ∅.

(** The record Update builds from the stored one (lines 126-138). *)
Definition updatedProduct (old : Product.t) (req : request) : Product.t :=
  Product.mk (Product.id old) (body req !! "name")
    (parseFloat (body req !! "price"))
    (orEmpty (body req !! "description"))
    (Product.images old ++ (File.filename <$> files req))
    (Product.extra old).

(** ** Sample data for the closed statements *)

Definition emptyWorld : world := mkWorld [] ∅ [].

Definition png (stored : string) : File.t :=
  File.mk "a.png" "image/png" 2048 stored.

Definition shirtRequest : request :=
  mkRequest {[ "name" := "Shirt"; "price" := "100000" ]} []
    [png "1700000000000-1.png"; png "1700000000000-2.png"].

(** The store after one Create at clock reading 1700000000000. *)
Definition shirtWorld : world :=
  snd (createProduct 1700000000000 shirtRequest emptyWorld).

Definition shirt : Product.t :=
  Product.mk "1700000000000" (Some "Shirt") (Finite false 1 5) ""
    ["1700000000000-1.png"; "1700000000000-2.png"] ∅.

Definition hatRequest : request :=
  mkRequest {[ "name" := "Hat"; "price" := "25000" ]} []
    [png "1700000000000-3.png"].

(** The store after a second Create within the same millisecond. *)
Definition twinWorld : world :=
  snd (createProduct 1700000000000 hatRequest shirtWorld).

Definition hat : Product.t :=
  Product.mk "1700000000000" (Some "Hat") (Finite false 25 3) ""
    ["1700000000000-3.png"] ∅.

(** A create form that also carries the stock and the pin flag, as the
    page sends it (public page, addProduct). *)
Definition stockedRequest : request :=
  mkRequest
    {[ "name" := "Shirt"; "price" := "100000"; "stock" := "5";
       "description" := "cotton"; "pinned" := "true" ]} []
    [png "1700000000000-1.png"].

(** An edit that keeps no image and uploads none (public page,
    updateProduct with every existing image removed). *)
Definition keepNothingRequest : request :=
  mkRequest {[ "name" := "Shirt"; "price" := "100000" ]} [] [].

(** An edit that keeps the two images in the other order and adds one. *)
Definition reorderRequest : request :=
  mkRequest {[ "name" := "Shirt"; "price" := "100000" ]}
    ["1700000000000-2.png"; "1700000000000-1.png"]
    [png "1700000000001-7.png"].

(** An edit of the text fields that changes stock and pin flag. *)
Definition restockRequest : request :=
  mkRequest
    {[ "name" := "Hat"; "price" := "5"; "stock" := "7";
       "description" := "wool"; "pinned" := "true" ]}
    ["1700000000000-1.png"; "1700000000000-2.png"] [].

(** A record as [database.json] can hold it, with stock and pin flag. *)
Definition storedWithStock : Product.t :=
  Product.mk "42" (Some "Mug") (Finite false 9 0) "" ["42-1.png"]
    {[ "stock" := JNum (Finite false 5 0); "pinned" := JBool false ]}.

Definition stockWorld : world :=
  mkWorld [storedWithStock] {[ "42-1.png" ]} [storedWithStock].

(** The shirt's first image was removed from the directory by hand. *)
Definition missingFileWorld : world :=
  mkWorld [shirt] {[ "1700000000000-2.png" ]} [shirt].

(** A create form without a name that still uploads a file. *)
Definition namelessRequest : request :=
  mkRequest {[ "price" := "100000" ]} [] [png "1700000000005-9.png"].

(** A create form that is complete. *)
Definition scarfRequest : request :=
  mkRequest {[ "name" := "Scarf"; "price" := "12.50" ]} []
    [png "1700000000009-4.png"].



(** A create form without a name whose file got a stored name that is
    already in the directory. *)
Definition overwriteRequest : request :=
  mkRequest {[ "price" := "100000" ]} [] [png "1700000000000-1.png"].

(** An edit whose price goes on after a number. *)
Definition tailRequest : request :=
  mkRequest {[ "name" := "Shirt"; "price" := "12abc" ]} [] [].

(** A no-break space (U+00A0, bytes 194 160) and then a digit. *)
Definition nbspFive : string :=
  String (ascii_of_N 194) (String (ascii_of_N 160) "5").

(** An edit with neither name nor a usable price. *)
Definition blankRequest : request :=
  mkRequest {[ "price" := "  cheap" ]} [] [].

(** ** The storage name of an upload (lines 24-27)

    [now] is what [Date.now()] reads, [rnd] the integer
    [Math.round(Math.random() * 1E9)] and [extname] what [path.extname]
    returns for the original name; both numbers print in plain decimal. *)

Definition uniqueSuffix (now rnd : N) : string :=
  pretty now +:+ "-" +:+ pretty rnd.

Definition filename (now rnd : N) (extname : string) : string :=
  uniqueSuffix now rnd +:+ extname.

(** Text made of decimal digits only. *)
Fixpoint digitsOnly (s : string) : bool :=
  match s with
  | String c r => isDecimalDigit c && digitsOnly r
  | EmptyString => true
  end.

(** Text that does not go on with a digit. *)
Definition noDigitAhead (s : string) : Prop :=
  match s with
  | String c _ => isDecimalDigit c = false
  | EmptyString => True
  end.

(** What [path.extname] can return: nothing, or a dot and what follows. *)
Definition isExtname (e : string) : Prop :=
  match e with
  | EmptyString => True
  | String c _ => c = "."%char
  end.

(** ** The routes as one service *)

Inductive call : Type :=
  | ListProducts
  | GetProduct (productId : string)
  | CreateProduct (now : N) (req : request)
  | UpdateProduct (productId : string) (req : request)
  | DeleteProduct (productId : string).

Definition serve (c : call) : js response :=
  match c with
  | ListProducts => listProducts
  | GetProduct productId => getProduct productId
  | CreateProduct now req => createProduct now req
  | UpdateProduct productId req => updateProduct productId req
  | DeleteProduct productId => deleteProduct productId
  end.

(** The files multer stored for the call. *)
Definition batch (c : call) : list File.t :=
  match c with
  | CreateProduct _ req | UpdateProduct _ req => files req
  | _ => []
  end.

(** The world after a sequence of calls, served one after the other. *)
Fixpoint serveAll (cs : list call) (w : world) : world :=
  match cs with
  | [] => w
  | c :: rest => serveAll rest (snd (serve c w))
  end.

(** Every call of the sequence arrives with a batch whose stored names
    are distinct and new to the directory as it is at that moment. *)
Fixpoint freshRun (cs : list call) (w : world) : Prop :=
  match cs with
  | [] => True
  | c :: rest => freshBatch (batch c) w ∧ freshRun rest (snd (serve c w))
  end.

(** A call that the handler turns down before it touches the store: a
    Create that fails the check of line 80, an Update of an id no record
    carries. *)
Definition rejected (c : call) (w : world) : Prop :=
  match c with
  | CreateProduct _ req => ¬ validCreate req
  | UpdateProduct productId _ => productId ∉ Product.id <$> products w
  | _ => False
  end.

(** ** Store and directory *)

(** Every image name the store lists, record by record. *)
Definition allImages (l : list Product.t) : list string :=
  l ≫= Product.images.

(** [database.json] holds what [JSON.stringify] writes of the store as
    it is now. *)
Definition inStep (w : world) : Prop :=
  database_json w = stringify (products w).

(** No image name is listed twice, and the uploads directory holds
    exactly the listed names: no dangling reference, no orphan file. *)
Definition agrees (w : world) : Prop :=
  NoDup (allImages (products w))
  ∧ uploads w = list_to_set (allImages (products w)).

(** ** The page: file check and kept list (public page, script)

    [file.type.match('image.*')] is not null exactly when the type
    contains the text image somewhere. *)
Fixpoint contains (pat s : string) : bool :=
  String.prefix pat s
  || match s with
     | String _ r => contains pat r
     | EmptyString => false
     end.

Definition pageAccepts (type : string) : bool := contains "image" type.

(** The remove button drawn for position [index] of the list shown runs
    [existingImages.splice(index, 1)] on the list as it is by then. *)
Definition removeClick (existing : list string) (index : nat) : list string :=
  delete index existing.

(** The kept list after the buttons drawn for [clicks] were pressed in
    that order. *)
Definition keptAfter (images : list string) (clicks : list nat) : list string :=
  foldl removeClick images clicks.

(** The ids of the store, in its order. *)
Definition ids (w : world) : list string := Product.id <$> products w.

(** A Create reads a clock whose string no record carries as id; every
    other call qualifies. *)
Definition newId (c : call) (w : world) : Prop :=
  match c with
  | CreateProduct now _ => toString now ∉ ids w
  | _ => True
  end.

(** What Update may do to a stored record [q]: the id and the properties
    no handler writes stay, no image is dropped, and a record with another
    id is not touched at all. *)
Definition updateKeeps (productId : string) (q q' : Product.t) : Prop :=
  Product.id q' = Product.id q
  ∧ Product.extra q' = Product.extra q
  ∧ Product.images q `prefix_of` Product.images q'
  ∧ (Product.id q ≠ productId → q' = q).

(** ** More sample data *)

(** A file whose type the page lets through and the server filter
    does not. *)
Definition oddTypeFile : File.t :=
  File.mk "a.bin" "application/x-image" 2048 "1700000000000-3.bin".

(** A create form without a name whose two files got the same stored
    name. *)
Definition clashRequest : request :=
  mkRequest {[ "price" := "100000" ]} []
    [png "1700000000005-9.png"; png "1700000000005-9.png"].

(** A complete create form whose price is a word. *)
Definition wordPriceRequest : request :=
  mkRequest {[ "name" := "Belt"; "price" := "cheap" ]} []
    [png "1700000000011-6.png"].

(** A session: create, edit with one more image, a create that is turned
    down, a read, another create, a delete, the list. *)
Definition sampleCalls : list call :=
  [ CreateProduct 1700000000000 shirtRequest;
    UpdateProduct "1700000000000" reorderRequest;
    CreateProduct 1700000000005 namelessRequest;
    GetProduct "1700000000000";
    CreateProduct 1700000000009 scarfRequest;
    DeleteProduct "1700000000000";
    ListProducts ].

(** ** parseFloat on text with no numeric prefix *)

Lemma decimalDigits_not_digit c r :
  isDecimalDigit c = false → decimalDigits (String c r) = ([], String c r).
Proof. intros H. simpl. by rewrite H. Qed.

Lemma unsignedLiteral_not_numeric u :
  startsNumeric u = false → unsignedLiteral u = None.
Proof.
  destruct u as [|c r]; [done|].
  unfold startsNumeric. intros H.
  apply orb_false_iff in H as [H _].
  apply orb_false_iff in H as [Hd Hdot].
  unfold unsignedLiteral. rewrite (decimalDigits_not_digit _ _ Hd).
  destruct (Ascii.eqb c "."); [|done].
  destruct r as [|d r']; [done|].
  simpl in Hdot. by rewrite (decimalDigits_not_digit _ _ Hdot).
Qed.

Lemma startsNumeric_not_Infinity u :
  startsNumeric u = false → String.prefix "Infinity" u = false.
Proof.
  destruct u as [|c r]; [done|].
  unfold startsNumeric. intros H.
  by apply orb_false_iff in H as [_ H].
Qed.

Lemma parseFloatString_nonNumeric s :
  nonNumeric s → parseFloatString s = NaN.
Proof.
  unfold nonNumeric, parseFloatString.
  destruct (stripSign (trimStart s)) as [neg u]. simpl. intros H.
  rewrite (startsNumeric_not_Infinity _ H).
  by rewrite (unsignedLiteral_not_numeric _ H).
Qed.

Lemma parseFloat_undefined : parseFloat None = NaN.
Proof. reflexivity. Qed.

(** ** Removing files *)

Lemma forEach_fmap {A B} (g : A → B) (f : B → js unit) (l : list A) w :
  forEach l (fun x => f (g x)) w = forEach (g <$> l) f w.
Proof.
  revert w. induction l as [|x l IH]; intros w; [done|].
  simpl. unfold bind. destruct (f (g x) w) as [[[]|e] w']; [apply IH|done].
Qed.

(** Unlinking a list of distinct names that are all present in [uploads]
    removes exactly those names and does not throw. *)
Lemma forEach_unlinkSync names w :
  NoDup names →
  Forall (fun n => n ∈ uploads w) names →
  forEach names unlinkUpload w
  = (Return tt,
     World (products w) (uploads w ∖ list_to_set names) (database_json w)
       (dirnameUploads w)).
Proof.
  intros Hnd. revert w.
  induction Hnd as [|n names Hn Hnd IH]; intros [ps up dj dn] Hin;
    simpl in *.
  - unfold ret. do 2 f_equal. set_solver.
  - apply Forall_cons in Hin as [Hn_in Hin].
    unfold bind, unlinkUpload at 1, unlinkSync. simpl.
    destruct (decide (n ∈ up)) as [_|]; [|done].
    unfold removeEntry. simpl.
    rewrite IH; simpl.
    + do 2 f_equal. set_solver.
    + apply Forall_forall. intros m Hm.
      rewrite Forall_forall in Hin. specialize (Hin m Hm).
      assert (m ≠ n) by (intros ->; done).
      set_solver.
Qed.

(** The loop of the delete route: a name that is absent from
    [__dirname/uploads] is skipped, and the loop never throws. *)
Lemma forEach_unlink_if_exists images w :
  forEach images (fun image =>
    let imagePath := InDirnameUploads image in
    present <- existsSync imagePath ;;
    if present then unlinkSync imagePath else ret tt) w
  = (Return tt, withoutImages images w).
Proof.
  unfold withoutImages.
  revert w. induction images as [|n images IH]; intros [ps up dj [d|]];
    simpl.
  - unfold ret. do 3 f_equal. set_solver.
  - unfold ret. do 2 f_equal. set_solver.
  - unfold bind at 1 2. unfold existsSync at 1. simpl.
    case_bool_decide as Hn.
    + unfold unlinkSync at 1. simpl.
      destruct (decide (n ∈ d)); [|done].
      unfold removeEntry. simpl.
      rewrite IH. simpl. do 3 f_equal. set_solver.
    + unfold ret at 1. rewrite IH. simpl. do 3 f_equal. set_solver.
  - unfold bind at 1 2. unfold existsSync at 1. simpl.
    case_bool_decide as Hn.
    + unfold unlinkSync at 1. simpl.
      destruct (decide (n ∈ up)); [|done].
      unfold removeEntry. simpl.
      rewrite IH. simpl. do 2 f_equal. set_solver.
    + unfold ret at 1. rewrite IH. simpl. do 2 f_equal. set_solver.
Qed.

(** The clean-up of lines 82-86 and 118-122 right after the files of the
    request were stored: the directory is back to what it was. *)
Lemma cleanup_after_diskStorage fs w :
  freshBatch fs w →
  (if bool_decide (0 < length fs)
   then forEach fs (fun file => unlinkSync (File.path file))
   else ret tt)
    (World (products w) (list_to_set (File.filename <$> fs) ∪ uploads w)
       (database_json w) (dirnameUploads w))
  = (Return tt, w).
Proof.
  destruct w as [ps up dj dn]. intros [Hnd Hfresh]. simpl in *.
  rewrite Forall_forall in Hfresh.
  case_bool_decide as Hlen.
  - rewrite (forEach_fmap File.filename unlinkUpload fs).
    rewrite forEach_unlinkSync; simpl.
    + do 2 f_equal. set_solver.
    + done.
    + apply Forall_forall. intros n Hn. set_solver.
  - destruct fs; [|simpl in Hlen; lia].
    unfold ret. simpl. do 2 f_equal. set_solver.
Qed.

(** ** Looking a record up *)

Lemma findIndex_None pid l :
  pid ∉ Product.id <$> l → findIndex pid l = None.
Proof.
  intros H. unfold findIndex.
  replace (list_find (fun p => Product.id p = pid) l) with
    (@None (nat * Product.t)); [done|].
  symmetry. apply list_find_None, Forall_forall. intros p Hp Hid.
  apply H, list_elem_of_fmap. eauto.
Qed.

Lemma find_None pid l :
  pid ∉ Product.id <$> l → find pid l = None.
Proof.
  intros H. unfold find.
  replace (list_find (fun p => Product.id p = pid) l) with
    (@None (nat * Product.t)); [done|].
  symmetry. apply list_find_None, Forall_forall. intros p Hp Hid.
  apply H, list_elem_of_fmap. eauto.
Qed.

Lemma resolves_list_find pid w i p :
  resolves pid w i p →
  list_find (fun q => Product.id q = pid) (products w) = Some (i, p).
Proof.
  intros [Hi Hp]. unfold findIndex in Hi.
  destruct (list_find _ (products w)) as [[j q]|] eqn:E; [|done].
  simpl in Hi. injection Hi as ->.
  apply list_find_Some in E as (Hq & _). congruence.
Qed.

Lemma resolves_id pid w i p : resolves pid w i p → Product.id p = pid.
Proof.
  intros H. apply resolves_list_find in H.
  by apply list_find_Some in H as (_ & ? & _).
Qed.

(** A record appended to a store that does not have its id yet is the one
    the id finds. *)
Lemma find_app_new l p :
  Product.id p ∉ Product.id <$> l → find (Product.id p) (l ++ [p]) = Some p.
Proof.
  intros H. unfold find.
  rewrite list_find_app_r.
  - simpl. by rewrite decide_True.
  - apply list_find_None, Forall_forall. intros q Hq Hid.
    apply H, list_elem_of_fmap. eauto.
Qed.

(** ** The truthiness test on a text field *)

Lemma falsy_true v : falsy v = true ↔ missingOrEmpty v.
Proof.
  unfold missingOrEmpty. destruct v as [s|]; simpl.
  - rewrite bool_decide_eq_true. naive_solver.
  - naive_solver.
Qed.

Lemma falsy_false v : ¬ missingOrEmpty v → falsy v = false.
Proof.
  intros H. destruct (falsy v) eqn:E; [|done].
  by apply falsy_true in E.
Qed.

(** ** What each route computes *)

Lemma createProduct_invalid now req w :
  falsy (body req !! "name") || falsy (body req !! "price")
    || bool_decide (length (files req) = 0) = true →
  freshBatch (files req) w →
  createProduct now req w
  = (Return (mkResponse 400 (PError validationMessage)), w).
Proof.
  intros Hbad Hfresh.
  unfold createProduct, createHandler, tryCatch, bind at 1, diskStorage.
  rewrite Hbad. unfold bind.
  by rewrite (cleanup_after_diskStorage _ _ Hfresh).
Qed.

Lemma validCreate_guard req :
  validCreate req →
  falsy (body req !! "name") || falsy (body req !! "price")
    || bool_decide (length (files req) = 0) = false.
Proof.
  intros (Hname & Hprice & Hfiles).
  rewrite (falsy_false _ Hname), (falsy_false _ Hprice). simpl.
  apply bool_decide_eq_false. by destruct (files req).
Qed.

Lemma createProduct_valid now req w :
  validCreate req →
  createProduct now req w
  = (Return (mkResponse 201 (PProduct (newProduct now req))),
     World (products w ++ [newProduct now req])
       (list_to_set (File.filename <$> files req) ∪ uploads w)
       (stringify (products w ++ [newProduct now req]))
       (dirnameUploads w)).
Proof.
  intros Hvalid.
  unfold createProduct, createHandler, tryCatch, bind at 1, diskStorage.
  by rewrite (validCreate_guard _ Hvalid).
Qed.

Lemma updateProduct_unknown productId req w :
  productId ∉ Product.id <$> products w →
  freshBatch (files req) w →
  updateProduct productId req w
  = (Return (mkResponse 404 (PError "Product not found")), w).
Proof.
  intros Hid Hfresh.
  unfold updateProduct, updateHandler, tryCatch, bind at 1, diskStorage.
  unfold bind at 1, getProducts at 1. simpl.
  rewrite (findIndex_None _ _ Hid). unfold bind.
  by rewrite (cleanup_after_diskStorage _ _ Hfresh).
Qed.

Lemma updateProduct_resolves productId req w i old :
  resolves productId w i old →
  updateProduct productId req w
  = (Return (mkResponse 200 (PProduct (updatedProduct old req))),
     World (<[i := updatedProduct old req]> (products w))
       (list_to_set (File.filename <$> files req) ∪ uploads w)
       (stringify (<[i := updatedProduct old req]> (products w)))
       (dirnameUploads w)).
Proof.
  intros [Hidx Hold].
  unfold updateProduct, updateHandler, tryCatch, bind at 1, diskStorage.
  unfold bind at 1, getProducts at 1. simpl.
  rewrite Hidx, Hold.
  replace (if bool_decide (0 < length (files req))
           then Product.images old ++ (File.filename <$> files req)
           else Product.images old)
    with (Product.images old ++ (File.filename <$> files req)); [done|].
  case_bool_decide as Hlen; [done|].
  destruct (files req); [by rewrite app_nil_r|simpl in Hlen; lia].
Qed.

Lemma deleteProduct_unknown productId w :
  productId ∉ Product.id <$> products w →
  deleteProduct productId w
  = (Return (mkResponse 404 (PError "Product not found")), w).
Proof.
  intros Hid. unfold deleteProduct, tryCatch, bind, getProducts.
  by rewrite (findIndex_None _ _ Hid).
Qed.

Lemma deleteProduct_resolves productId w i p :
  resolves productId w i p →
  deleteProduct productId w
  = (Return (mkResponse 200 (PMessage "Product deleted successfully")),
     World (delete i (products w))
       (uploads (withoutImages (Product.images p) w))
       (stringify (delete i (products w)))
       (dirnameUploads (withoutImages (Product.images p) w))).
Proof.
  intros [Hidx Hp].
  unfold deleteProduct, tryCatch, bind at 1, getProducts at 1.
  rewrite Hidx, Hp. unfold bind at 1. cbv zeta.
  assert ((if bool_decide (0 < length (Product.images p))
           then forEach (Product.images p) (fun image =>
                  present <- existsSync (InDirnameUploads image) ;;
                  if present then unlinkSync (InDirnameUploads image)
                  else ret tt)
           else ret tt) w
          = (Return tt, withoutImages (Product.images p) w)) as ->.
  { case_bool_decide as Hlen; [apply forEach_unlink_if_exists|].
    destruct (Product.images p); [|simpl in Hlen; lia].
    unfold withoutImages.
    destruct w as [ps up dj [d|]]; unfold ret; simpl.
    - do 3 f_equal. set_solver.
    - do 2 f_equal. set_solver. }
  unfold withoutImages. by destruct (dirnameUploads w).
Qed.

(** In a server started in its own directory the images leave
    [uploads]. *)
Lemma withoutImages_ownDirectory names w :
  ownDirectory w →
  uploads (withoutImages names w) = uploads w ∖ list_to_set names
  ∧ dirnameUploads (withoutImages names w) = None.
Proof. unfold ownDirectory, withoutImages. by intros ->. Qed.

(** Anywhere, [uploads] loses nothing but those names, and none of them
    is left where the delete route looks. *)
Lemma withoutImages_uploads names w :
  uploads (withoutImages names w) ⊆ uploads w
  ∧ uploads w ∖ list_to_set names ⊆ uploads (withoutImages names w)
  ∧ (dirnameUploads (withoutImages names w) = None
     ↔ dirnameUploads w = None)
  ∧ Forall (fun image =>
      image ∉ directory (InDirnameUploads image) (withoutImages names w))
      names.
Proof.
  unfold withoutImages. destruct (dirnameUploads w) as [d|] eqn:E; simpl.
  - split; [done|]. split; [set_solver|]. split; [done|].
    apply Forall_forall. intros image Himage. set_solver.
  - split; [set_solver|]. split; [done|]. split; [done|].
    apply Forall_forall. intros image Himage. set_solver.
Qed.

Lemma getProduct_found productId w p :
  find productId (products w) = Some p →
  getProduct productId w = (Return (mkResponse 200 (PProduct p)), w).
Proof. intros H. unfold getProduct, bind, getProducts. by rewrite H. Qed.

Lemma getProduct_unknown productId w :
  find productId (products w) = None →
  getProduct productId w
  = (Return (mkResponse 404 (PError "Product not found")), w).
Proof. intros H. unfold getProduct, bind, getProducts. by rewrite H. Qed.

(** ** Exactly one record with the id *)




(** ** Closing goals on the sample data *)

(** A decidable statement about concrete data, settled by evaluating its
    decision procedure. *)
Ltac by_computation := apply (bool_decide_unpack _); vm_compute; exact I.

(** [validCreate] of a concrete form. *)
Ltac valid_create :=
  split; [intros [H|H]; discriminate H|];
  split; [intros [H|H]; discriminate H|discriminate].

(** ** The sample stores *)

Example shirtWorld_eq :
  shirtWorld
  = mkWorld [shirt] {[ "1700000000000-1.png"; "1700000000000-2.png" ]} [shirt].
Proof. vm_compute. reflexivity. Qed.

Example twinWorld_products : products twinWorld = [shirt; hat].
Proof. vm_compute. reflexivity. Qed.

Example fileFilter_png : fileFilter (png "1700000000000-1.png") = true.
Proof. reflexivity. Qed.

Example fileFilter_pdf :
  fileFilter (File.mk "a.pdf" "application/pdf" 2048 "1700000000000-1.pdf")
  = false.
Proof. reflexivity. Qed.

(** ** Create *)

(** C3, as the code has it: a Create whose name or price is missing or
    empty, or that has no stored image, and whose files got stored names
    that are pairwise distinct and were not in the uploads directory
    before the request, answers 400 with the message of line 87 and
    leaves the whole world as it was before the request: the product list
    and [database.json] are untouched and every file the request stored
    is unlinked again, so the uploads directory holds the same names as
    before. *)
Theorem create_invalid_leaves_no_orphan now req w :
  missingOrEmpty (body req !! "name")
  ∨ missingOrEmpty (body req !! "price")
  ∨ files req = [] →
  freshBatch (files req) w →
  createProduct now req w
  = (Return (mkResponse 400 (PError validationMessage)), w).
Proof.
  intros Hbad Hfresh. apply createProduct_invalid; [|done].
  destruct Hbad as [Hname | [Hprice | ->]].
  - apply falsy_true in Hname. by rewrite Hname.
  - apply falsy_true in Hprice. rewrite Hprice. by rewrite orb_true_r.
  - by rewrite orb_true_r.
Qed.

Lemma create_invalid_leaves_no_orphan_witness :
  (missingOrEmpty (body namelessRequest !! "name")
   ∨ missingOrEmpty (body namelessRequest !! "price")
   ∨ files namelessRequest = [])
  ∧ freshBatch (files namelessRequest) shirtWorld
  ∧ createProduct 1700000000005 namelessRequest shirtWorld
    = (Return (mkResponse 400 (PError validationMessage)), shirtWorld).
Proof.
  assert (missingOrEmpty (body namelessRequest !! "name")
          ∨ missingOrEmpty (body namelessRequest !! "price")
          ∨ files namelessRequest = []) as Hbad
    by (left; left; reflexivity).
  assert (freshBatch (files namelessRequest) shirtWorld) as Hfresh
    by by_computation.
  split; [exact Hbad|]. split; [exact Hfresh|].
  exact (create_invalid_leaves_no_orphan _ _ _ Hbad Hfresh).
Defined.

(** C3 as written fails, in two ways. When the file of a Create without
    a name got a stored name that is already in the directory, the answer
    is 400 and the clean-up unlinks that name: a file that was there
    before the request is gone after it. And when two files of the
    request got the same stored name, the clean-up throws at the second
    and the answer is 500, not 400. *)
Lemma create_invalid_disturbs_directory :
  missingOrEmpty (body overwriteRequest !! "name")
  ∧ fst (createProduct 1700000000005 overwriteRequest shirtWorld)
    = Return (mkResponse 400 (PError validationMessage))
  ∧ "1700000000000-1.png" ∈ uploads shirtWorld
  ∧ "1700000000000-1.png"
    ∉ uploads (snd (createProduct 1700000000005 overwriteRequest shirtWorld))
  ∧ missingOrEmpty (body clashRequest !! "name")
  ∧ fst (createProduct 1700000000005 clashRequest shirtWorld)
    = Return (mkResponse 500 (PError "Internal server error")).
Proof.
  split; [by left|]. split; [vm_compute; reflexivity|].
  split; [by_computation|]. split; [by_computation|].
  split; [by left|]. vm_compute. reflexivity.
Qed.

(** C5, as the code has it: after a valid Create whose id (the clock
    reading as a string) is not yet carried by a record of the store,
    Get of that id answers with the very record Create answered with, and
    the record lists as many images as files were stored. *)
Theorem create_then_get now req w :
  validCreate req →
  toString now ∉ Product.id <$> products w →
  ∃ p w',
    createProduct now req w = (Return (mkResponse 201 (PProduct p)), w')
    ∧ getProduct (Product.id p) w' = (Return (mkResponse 200 (PProduct p)), w')
    ∧ length (Product.images p) = length (files req).
Proof.
  intros Hvalid Hnew. eexists _, _.
  split; [by apply createProduct_valid|]. split.
  - apply getProduct_found. simpl.
    by apply (find_app_new (products w) (newProduct now req)).
  - simpl. by rewrite length_fmap.
Qed.

Lemma create_then_get_witness :
  validCreate scarfRequest
  ∧ toString 1700000000009 ∉ Product.id <$> products shirtWorld
  ∧ ∃ p w',
      createProduct 1700000000009 scarfRequest shirtWorld
      = (Return (mkResponse 201 (PProduct p)), w')
      ∧ getProduct (Product.id p) w'
        = (Return (mkResponse 200 (PProduct p)), w')
      ∧ length (Product.images p) = length (files scarfRequest).
Proof.
  assert (validCreate scarfRequest) as Hvalid by valid_create.
  assert (toString 1700000000009 ∉ Product.id <$> products shirtWorld)
    as Hnew by by_computation.
  split; [exact Hvalid|]. split; [exact Hnew|].
  exact (create_then_get 1700000000009 scarfRequest shirtWorld Hvalid Hnew).
Defined.

(** C5 as written fails: a second valid Create in the same millisecond
    gets the id of the first, and Get of that id answers with the first
    record, not with the one the second Create returned. *)
Lemma create_then_get_same_clock :
  validCreate hatRequest
  ∧ createProduct 1700000000000 hatRequest shirtWorld
    = (Return (mkResponse 201 (PProduct hat)), twinWorld)
  ∧ getProduct (Product.id hat) twinWorld
    = (Return (mkResponse 200 (PProduct shirt)), twinWorld)
  ∧ shirt ≠ hat.
Proof.
  split; [valid_create|].
  split; [vm_compute; reflexivity|].
  split; [vm_compute; reflexivity|discriminate].
Qed.

(** C6, evaluated on the code: the record Create builds has neither a
    stock nor a pinned property, whether the form leaves them out or
    sends them; the stock is undefined rather than 0 and the pin flag
    undefined rather than false. *)
Theorem create_stores_no_stock_no_pinned :
  createProduct 1700000000000 shirtRequest emptyWorld
  = (Return (mkResponse 201 (PProduct shirt)), shirtWorld)
  ∧ Product.extra shirt !! "stock" = None
  ∧ Product.extra shirt !! "pinned" = None
  ∧ body stockedRequest !! "stock" = Some "5"
  ∧ body stockedRequest !! "pinned" = Some "true"
  ∧ ∃ p w',
      createProduct 1700000000000 stockedRequest emptyWorld
      = (Return (mkResponse 201 (PProduct p)), w')
      ∧ Product.extra p !! "stock" = None
      ∧ Product.extra p !! "pinned" = None.
Proof.
  split; [vm_compute; reflexivity|].
  do 4 (split; [reflexivity|]).
  eexists _, _. split; [apply createProduct_valid|].
  - valid_create.
  - split; reflexivity.
Qed.

(** ** Update *)

(** C1, evaluated on the code: the handler never reads the kept list. An
    edit of the shirt that keeps no image and uploads none answers with
    both images still listed, where the claim has the empty list; an edit
    that keeps the two images in the other order and uploads one answers
    with the stored order followed by the upload. *)
Theorem update_ignores_kept_list :
  resolves "1700000000000" shirtWorld 0 shirt
  ∧ updateProduct "1700000000000" keepNothingRequest shirtWorld
    = (Return (mkResponse 200 (PProduct shirt)), shirtWorld)
  ∧ Product.images shirt
    ≠ existingImages keepNothingRequest
      ++ (File.filename <$> files keepNothingRequest)
  ∧ ∃ p w',
      updateProduct "1700000000000" reorderRequest shirtWorld
      = (Return (mkResponse 200 (PProduct p)), w')
      ∧ Product.images p
        = ["1700000000000-1.png"; "1700000000000-2.png";
           "1700000000001-7.png"]
      ∧ existingImages reorderRequest
        ++ (File.filename <$> files reorderRequest)
        = ["1700000000000-2.png"; "1700000000000-1.png";
           "1700000000001-7.png"].
Proof.
  assert (resolves "1700000000000" shirtWorld 0 shirt) as Hres
    by (split; vm_compute; reflexivity).
  split; [exact Hres|].
  split; [vm_compute; reflexivity|].
  split; [discriminate|].
  eexists _, _. split; [exact (updateProduct_resolves _ _ _ _ _ Hres)|].
  split; reflexivity.
Qed.

(** C4, as the code has it: an Update whose id no record of the store
    carries, and whose files got stored names that are pairwise distinct
    and were not in the uploads directory before the request, answers 404
    and leaves the whole world as it was before the request: every file
    the request stored is unlinked again, so the uploads directory holds
    the same names as before. *)
Theorem update_unknown_leaves_no_orphan productId req w :
  productId ∉ Product.id <$> products w →
  freshBatch (files req) w →
  updateProduct productId req w
  = (Return (mkResponse 404 (PError "Product not found")), w).
Proof. apply updateProduct_unknown. Qed.

Lemma update_unknown_leaves_no_orphan_witness :
  "1600000000000" ∉ Product.id <$> products shirtWorld
  ∧ freshBatch (files reorderRequest) shirtWorld
  ∧ updateProduct "1600000000000" reorderRequest shirtWorld
    = (Return (mkResponse 404 (PError "Product not found")), shirtWorld).
Proof.
  assert ("1600000000000" ∉ Product.id <$> products shirtWorld) as Hid
    by by_computation.
  assert (freshBatch (files reorderRequest) shirtWorld) as Hfresh
    by by_computation.
  split; [exact Hid|]. split; [exact Hfresh|].
  exact (update_unknown_leaves_no_orphan _ _ _ Hid Hfresh).
Defined.

(** C4 as written fails, in two ways. When the file of an Update of an
    unknown id got a stored name that is already in the directory, the
    answer is 404 and the clean-up unlinks that name: a file that was
    there before the request is gone after it. And when two files of the
    request got the same stored name, the clean-up throws at the second
    and the answer is 500, not 404. *)
Lemma update_unknown_disturbs_directory :
  "1600000000000" ∉ Product.id <$> products shirtWorld
  ∧ fst (updateProduct "1600000000000" overwriteRequest shirtWorld)
    = Return (mkResponse 404 (PError "Product not found"))
  ∧ "1700000000000-1.png" ∈ uploads shirtWorld
  ∧ "1700000000000-1.png"
    ∉ uploads (snd (updateProduct "1600000000000" overwriteRequest
                      shirtWorld))
  ∧ fst (updateProduct "1600000000000" clashRequest shirtWorld)
    = Return (mkResponse 500 (PError "Internal server error")).
Proof.
  split; [by_computation|]. split; [vm_compute; reflexivity|].
  split; [by_computation|]. split; [by_computation|].
  vm_compute. reflexivity.
Qed.

(** C7, evaluated on the code: the handler reads name, price and
    description only. An edit that sends stock 7 and the pin flag
    replaces name, price and description and writes the store to
    [database.json] before it answers, but the stored record gets no
    stock and no pinned property; and where the stored record has them
    (stock 5, not pinned), the spread carries the old values over instead
    of the ones sent. *)
Theorem update_keeps_old_stock_and_pinned :
  body restockRequest !! "stock" = Some "7"
  ∧ body restockRequest !! "pinned" = Some "true"
  ∧ (∃ p,
      updateProduct "1700000000000" restockRequest shirtWorld
      = (Return (mkResponse 200 (PProduct p)),
         mkWorld [p] (uploads shirtWorld) [p])
      ∧ Product.name p = Some "Hat"
      ∧ Product.price p = Finite false 5 0
      ∧ Product.description p = "wool"
      ∧ Product.extra p !! "stock" = None
      ∧ Product.extra p !! "pinned" = None)
  ∧ (∃ p,
      updateProduct "42" restockRequest stockWorld
      = (Return (mkResponse 200 (PProduct p)),
         mkWorld [p] (uploads stockWorld) [p])
      ∧ Product.extra p !! "stock" = Some (JNum (Finite false 5 0))
      ∧ Product.extra p !! "pinned" = Some (JBool false)).
Proof.
  do 2 (split; [reflexivity|]). split.
  - exists (updatedProduct shirt restockRequest).
    split; [vm_compute; reflexivity|]. repeat split; reflexivity.
  - exists (updatedProduct storedWithStock restockRequest).
    split; [vm_compute; reflexivity|]. repeat split; reflexivity.
Qed.

(** C10, as the code has it: an Update whose id resolves to a stored
    record always answers 200 with the rebuilt record, which is what the
    store then holds at that index, whatever the form fields are: the
    name and the price are stored as [name] and [parseFloat(price)] with
    no check, so a missing name is stored as undefined, and a missing
    price, or a price text with no numeric prefix (after the leading white
    space and one optional sign comes neither a digit, nor a dot followed
    by a digit, nor the word Infinity), is stored as NaN. *)
Theorem update_has_no_validation productId req w i old :
  resolves productId w i old →
  ∃ p w',
    updateProduct productId req w
    = (Return (mkResponse 200 (PProduct p)), w')
    ∧ products w' !! i = Some p
    ∧ Product.name p = body req !! "name"
    ∧ Product.price p = parseFloat (body req !! "price")
    ∧ (body req !! "name" = None → Product.name p = None)
    ∧ (body req !! "price" = None → Product.price p = NaN)
    ∧ (∀ s, body req !! "price" = Some s → nonNumeric s →
         Product.price p = NaN).
Proof.
  intros Hres. eexists _, _.
  split; [exact (updateProduct_resolves _ req _ _ _ Hres)|].
  destruct Hres as [_ Hold]. simpl.
  split; [apply list_lookup_insert_eq; by eapply lookup_lt_Some|].
  do 2 (split; [done|]).
  split; [done|]. split.
  - by intros ->.
  - intros s -> Hs. by apply parseFloatString_nonNumeric.
Qed.

Lemma update_has_no_validation_witness :
  resolves "1700000000000" shirtWorld 0 shirt
  ∧ body blankRequest !! "name" = None
  ∧ nonNumeric "  cheap"
  ∧ ∃ p w',
      updateProduct "1700000000000" blankRequest shirtWorld
      = (Return (mkResponse 200 (PProduct p)), w')
      ∧ products w' !! 0 = Some p
      ∧ Product.name p = body blankRequest !! "name"
      ∧ Product.price p = parseFloat (body blankRequest !! "price")
      ∧ (body blankRequest !! "name" = None → Product.name p = None)
      ∧ (body blankRequest !! "price" = None → Product.price p = NaN)
      ∧ (∀ s, body blankRequest !! "price" = Some s → nonNumeric s →
           Product.price p = NaN).
Proof.
  assert (resolves "1700000000000" shirtWorld 0 shirt) as Hres
    by (split; vm_compute; reflexivity).
  split; [exact Hres|]. split; [reflexivity|]. split; [reflexivity|].
  exact (update_has_no_validation "1700000000000" blankRequest shirtWorld
           0 shirt Hres).
Defined.

(** C10 as written fails: a price that is not a number but starts with
    one is not stored as NaN. An Update of the shirt with the price text
    12abc answers 200 and stores the price 12. *)
Lemma update_price_with_tail :
  resolves "1700000000000" shirtWorld 0 shirt
  ∧ body tailRequest !! "price" = Some "12abc"
  ∧ ∃ p w',
      updateProduct "1700000000000" tailRequest shirtWorld
      = (Return (mkResponse 200 (PProduct p)), w')
      ∧ Product.price p = Finite false 12 0
      ∧ Product.price p ≠ NaN.
Proof.
  assert (resolves "1700000000000" shirtWorld 0 shirt) as Hres
    by (split; vm_compute; reflexivity).
  split; [exact Hres|]. split; [reflexivity|].
  eexists _, _.
  split; [exact (updateProduct_resolves _ tailRequest _ _ _ Hres)|].
  split; [vm_compute; reflexivity|]. simpl. vm_compute. discriminate.
Qed.

(** ** Delete *)







Example delete_missing_file_world :
  snd (deleteProduct "1700000000000" missingFileWorld) = emptyWorld.
Proof. vm_compute. reflexivity. Qed.

(** ** The clean-up loop on any batch *)

Lemma cleanup_forEach fs w :
  (if bool_decide (0 < length fs)
   then forEach fs (fun file => unlinkSync (File.path file))
   else ret tt) w
  = forEach (File.filename <$> fs) unlinkUpload w.
Proof.
  case_bool_decide as Hlen;
    [apply (forEach_fmap File.filename unlinkUpload)|].
  destruct fs; [done|simpl in Hlen; lia].
Qed.

(** Whether it throws or not, the loop leaves the store and
    [database.json] alone, adds no file and removes none but the names it
    was given. *)
Lemma forEach_unlinkSync_frame names w :
  products (snd (forEach names unlinkUpload w)) = products w
  ∧ database_json (snd (forEach names unlinkUpload w)) = database_json w
  ∧ dirnameUploads (snd (forEach names unlinkUpload w)) = dirnameUploads w
  ∧ uploads (snd (forEach names unlinkUpload w)) ⊆ uploads w
  ∧ uploads w ∖ list_to_set names
    ⊆ uploads (snd (forEach names unlinkUpload w)).
Proof.
  revert w. induction names as [|n names IH]; intros [ps up dj dn]; simpl.
  - set_solver.
  - unfold bind, unlinkUpload at 1 3 5 7 9, unlinkSync. simpl.
    destruct (decide (n ∈ up)); simpl; [|set_solver].
    destruct (IH (World ps (up ∖ {[n]}) dj dn))
      as (Hp & Hd & Hdn & Hsub & Hkeep).
    simpl in *. do 3 (split; [done|]). set_solver.
Qed.

(** The loop throws as soon as a name is not there, be it that the file
    never was in the directory or that the same name came before. *)
Lemma forEach_unlinkSync_throws names w :
  Exists (fun n => n ∉ uploads w) names ∨ ¬ NoDup names →
  ∃ w', forEach names unlinkUpload w = (Throw "ENOENT", w').
Proof.
  revert w. induction names as [|n names IH]; intros [ps up dj dn] H;
    simpl in *.
  - destruct H as [H|H]; [by apply Exists_nil in H|].
    destruct H. constructor.
  - unfold bind, unlinkUpload at 1, unlinkSync. simpl.
    destruct (decide (n ∈ up)) as [Hn|Hn]; [|by eexists].
    apply IH. simpl.
    destruct (decide (n ∈ names)) as [Hdup|Hnodup].
    { left. apply Exists_exists. exists n. split; [done|set_solver]. }
    destruct H as [H|H].
    + left. apply Exists_cons in H as [H|H]; [done|].
      eapply Exists_impl; [exact H|]. intros x Hx. set_solver.
    + right. intros Hnd. apply H. by constructor.
Qed.

(** ** A call the handler turns down *)

Lemma guard_true req :
  ¬ validCreate req →
  falsy (body req !! "name") || falsy (body req !! "price")
    || bool_decide (length (files req) = 0) = true.
Proof.
  intros Hnot.
  destruct (falsy (body req !! "name")) eqn:Hname; [done|].
  destruct (falsy (body req !! "price")) eqn:Hprice; [done|].
  simpl. apply bool_decide_eq_true.
  destruct (files req) as [|f fs] eqn:Hfiles; [done|].
  destruct Hnot. unfold validCreate. rewrite Hfiles.
  split; [|split; [|done]].
  - intros H. apply falsy_true in H. congruence.
  - intros H. apply falsy_true in H. congruence.
Qed.

Lemma createProduct_rejected now req w :
  ¬ validCreate req →
  createProduct now req w
  = match forEach (File.filename <$> files req) unlinkUpload
            (World (products w)
               (list_to_set (File.filename <$> files req) ∪ uploads w)
               (database_json w) (dirnameUploads w)) with
    | (Return _, w') =>
        (Return (mkResponse 400 (PError validationMessage)), w')
    | (Throw _, w') =>
        (Return (mkResponse 500 (PError "Internal server error")), w')
    end.
Proof.
  intros Hnot.
  unfold createProduct, createHandler, tryCatch, bind at 1, diskStorage.
  rewrite (guard_true _ Hnot). unfold bind. rewrite cleanup_forEach.
  by destruct (forEach _ _ _) as [[[]|e] w'].
Qed.

Lemma updateProduct_rejected productId req w :
  productId ∉ Product.id <$> products w →
  updateProduct productId req w
  = match forEach (File.filename <$> files req) unlinkUpload
            (World (products w)
               (list_to_set (File.filename <$> files req) ∪ uploads w)
               (database_json w) (dirnameUploads w)) with
    | (Return _, w') =>
        (Return (mkResponse 404 (PError "Product not found")), w')
    | (Throw _, w') =>
        (Return (mkResponse 500 (PError "Internal server error")), w')
    end.
Proof.
  intros Hid.
  unfold updateProduct, updateHandler, tryCatch, bind at 1, diskStorage.
  unfold bind at 1, getProducts at 1. simpl.
  rewrite (findIndex_None _ _ Hid). unfold bind. rewrite cleanup_forEach.
  by destruct (forEach _ _ _) as [[[]|e] w'].
Qed.

(** Both rejections in one: the answer depends on the clean-up only. *)
Lemma serve_rejected c w :
  rejected c w →
  ∃ refusal,
    (status refusal = 400 ∨ status refusal = 404)
    ∧ serve c w
      = match forEach (File.filename <$> batch c) unlinkUpload
                (World (products w)
                   (list_to_set (File.filename <$> batch c) ∪ uploads w)
                   (database_json w) (dirnameUploads w)) with
        | (Return _, w') => (Return refusal, w')
        | (Throw _, w') =>
            (Return (mkResponse 500 (PError "Internal server error")), w')
        end.
Proof.
  destruct c as [| |now req|productId req|]; simpl; try done; intros H.
  - eexists. split; [|by apply createProduct_rejected]. by left.
  - eexists. split; [|by apply updateProduct_rejected]. by right.
Qed.

Lemma serve_rejected_frame c w :
  rejected c w →
  products (snd (serve c w)) = products w
  ∧ database_json (snd (serve c w)) = database_json w
  ∧ dirnameUploads (snd (serve c w)) = dirnameUploads w
  ∧ uploads w ∖ list_to_set (File.filename <$> batch c)
    ⊆ uploads (snd (serve c w))
  ∧ uploads (snd (serve c w))
    ⊆ uploads w ∪ list_to_set (File.filename <$> batch c).
Proof.
  intros Hrej. destruct (serve_rejected _ _ Hrej) as (refusal & _ & ->).
  pose proof (forEach_unlinkSync_frame (File.filename <$> batch c)
    (World (products w)
       (list_to_set (File.filename <$> batch c) ∪ uploads w)
       (database_json w) (dirnameUploads w)))
    as (Hp & Hd & Hdn & Hsub & Hkeep).
  destruct (forEach _ _ _) as [[[]|e] w']; simpl in *.
  - do 3 (split; [done|]). set_solver.
  - do 3 (split; [done|]). set_solver.
Qed.

(** ** Which way a call goes *)

Lemma validCreate_cases req : validCreate req ∨ ¬ validCreate req.
Proof.
  destruct (falsy (body req !! "name") || falsy (body req !! "price")
            || bool_decide (length (files req) = 0)) eqn:G.
  - right. intros Hvalid. apply validCreate_guard in Hvalid. congruence.
  - left. apply orb_false_iff in G as [G Hfiles].
    apply orb_false_iff in G as [Hname Hprice].
    split; [|split].
    + intros H. apply falsy_true in H. congruence.
    + intros H. apply falsy_true in H. congruence.
    + apply bool_decide_eq_false in Hfiles. intros E. apply Hfiles.
      by rewrite E.
Qed.

Lemma findIndex_cases productId w :
  productId ∉ Product.id <$> products w
  ∨ ∃ i old, resolves productId w i old.
Proof.
  unfold resolves, findIndex.
  destruct (list_find (fun p => Product.id p = productId) (products w))
    as [[i old]|] eqn:E.
  - right. exists i, old. split; [done|].
    by apply list_find_Some in E as (? & _).
  - left. apply list_find_None in E. rewrite Forall_forall in E.
    intros (p & -> & Hp)%list_elem_of_fmap. by apply (E p).
Qed.

(** ** The image names of a store *)

Lemma allImages_app l1 l2 :
  allImages (l1 ++ l2) = allImages l1 ++ allImages l2.
Proof. apply bind_app. Qed.

Lemma allImages_insert l i old p names :
  l !! i = Some old →
  Product.images p = Product.images old ++ names →
  allImages (<[i := p]> l) ≡ₚ allImages l ++ names.
Proof.
  intros Hold Himages. revert i Hold.
  induction l as [|a l IH]; intros [|i] Hold; simplify_eq/=.
  - rewrite Himages, <- !(assoc_L (++)). f_equiv.
    apply Permutation_app_comm.
  - rewrite <- (assoc_L (++)). f_equiv. by apply IH.
Qed.

Lemma allImages_delete l i p :
  l !! i = Some p →
  allImages l ≡ₚ Product.images p ++ allImages (delete i l).
Proof.
  revert i. induction l as [|a l IH]; intros [|i] Hp; simplify_eq/=.
  - done.
  - rewrite (IH _ Hp), !(assoc_L (++)). f_equiv.
    apply Permutation_app_comm.
Qed.

(** ** One call: store and directory *)

Lemma serve_ownDirectory c w :
  ownDirectory w → ownDirectory (snd (serve c w)).
Proof.
  unfold ownDirectory. intros Hw.
  destruct c as [|productId|now req|productId req|productId]; simpl.
  - done.
  - unfold getProduct, bind, getProducts.
    by destruct (find productId (products w)).
  - destruct (validCreate_cases req) as [Hvalid|Hnot].
    + by rewrite (createProduct_valid _ _ _ Hvalid).
    + destruct (serve_rejected_frame (CreateProduct now req) w Hnot)
        as (_ & _ & Hdn & _). simpl in *. congruence.
  - destruct (findIndex_cases productId w) as [Hid|(i & old & Hres)].
    + destruct (serve_rejected_frame (UpdateProduct productId req) w Hid)
        as (_ & _ & Hdn & _). simpl in *. congruence.
    + by rewrite (updateProduct_resolves _ req _ _ _ Hres).
  - destruct (findIndex_cases productId w) as [Hid|(i & old & Hres)].
    + by rewrite (deleteProduct_unknown _ _ Hid).
    + rewrite (deleteProduct_resolves _ _ _ _ Hres). simpl.
      by apply withoutImages_ownDirectory.
Qed.

Lemma serve_agrees c w :
  ownDirectory w →
  agrees w → freshBatch (batch c) w → agrees (snd (serve c w)).
Proof.
  unfold agrees. intros Hown [Hnd Hup] Hfresh.
  destruct c as [|productId|now req|productId req|productId]; simpl in *.
  - done.
  - unfold getProduct, bind, getProducts.
    by destruct (find productId (products w)).
  - destruct (validCreate_cases req) as [Hvalid|Hnot].
    + rewrite (createProduct_valid _ _ _ Hvalid). simpl.
      rewrite allImages_app. unfold allImages at 2 4. simpl.
      rewrite app_nil_r. destruct Hfresh as [Hnames Hnew].
      rewrite Forall_forall in Hnew. split.
      * apply NoDup_app. split; [done|]. split; [|done].
        intros x Hx Hx'. apply (Hnew x Hx'). rewrite Hup. set_solver.
      * rewrite Hup, list_to_set_app_L. set_solver.
    + rewrite createProduct_invalid; [done| |done].
      by apply guard_true.
  - destruct (findIndex_cases productId w) as [Hid|(i & old & Hres)].
    + by rewrite (updateProduct_unknown _ _ _ Hid Hfresh).
    + rewrite (updateProduct_resolves _ req _ _ _ Hres). simpl.
      destruct Hres as [_ Hold]. destruct Hfresh as [Hnames Hnew].
      rewrite Forall_forall in Hnew.
      pose proof (allImages_insert (products w) i old
        (updatedProduct old req) (File.filename <$> files req) Hold eq_refl)
        as Hperm.
      split.
      * rewrite Hperm. apply NoDup_app. split; [done|]. split; [|done].
        intros x Hx Hx'. apply (Hnew x Hx'). rewrite Hup. set_solver.
      * rewrite (list_to_set_perm_L _ _ Hperm), Hup, list_to_set_app_L.
        set_solver.
  - destruct (findIndex_cases productId w) as [Hid|(i & p & Hres)].
    + by rewrite (deleteProduct_unknown _ _ Hid).
    + rewrite (deleteProduct_resolves _ _ _ _ Hres). simpl.
      destruct (withoutImages_ownDirectory (Product.images p) w Hown)
        as [-> _].
      destruct Hres as [_ Hp].
      pose proof (allImages_delete (products w) i p Hp) as Hperm.
      rewrite Hperm in Hnd. apply NoDup_app in Hnd as (_ & Hdisj & Hrest).
      split; [done|].
      rewrite Hup, (list_to_set_perm_L _ _ Hperm), list_to_set_app_L.
      set_solver.
Qed.

(** ** Store and directory over any session *)

(** X2: in a server that was started in its own directory, if no image
    name is listed twice and the uploads directory holds exactly the
    listed names, the same is true after any sequence of calls whose
    batches get stored names that are distinct and new to the directory:
    the routes leave neither a dangling reference nor an orphan file. *)
Theorem store_and_directory_agree cs w :
  ownDirectory w → agrees w → freshRun cs w → agrees (serveAll cs w).
Proof.
  revert w. induction cs as [|c cs IH]; intros w Hown Hw Hfresh; [done|].
  simpl in *. destruct Hfresh as [Hbatch Hrest].
  apply IH; [by apply serve_ownDirectory|by apply serve_agrees|done].
Qed.

Lemma store_and_directory_agree_witness :
  ownDirectory emptyWorld
  ∧ agrees emptyWorld
  ∧ freshRun sampleCalls emptyWorld
  ∧ agrees (serveAll sampleCalls emptyWorld).
Proof.
  assert (ownDirectory emptyWorld) as Hown by reflexivity.
  assert (agrees emptyWorld) as Hw by (split; [constructor|reflexivity]).
  assert (freshRun sampleCalls emptyWorld) as Hfresh
    by (cbn [freshRun sampleCalls]; repeat (split; [by_computation|]);
        exact I).
  split; [exact Hown|]. split; [exact Hw|]. split; [exact Hfresh|].
  exact (store_and_directory_agree sampleCalls emptyWorld Hown Hw Hfresh).
Defined.

(** ** Calls that are turned down *)

(** X3: a Create that fails the check of line 80, or an Update of an id
    no record carries, whose stored names are pairwise distinct, answers
    400 or 404, leaves the store and [database.json] as they were, and
    leaves in the directory what was there before minus the stored names:
    a file that was already there under one of those names is gone too. *)
Theorem rejected_call_cleans_up c w :
  rejected c w →
  NoDup (File.filename <$> batch c) →
  ∃ refusal w',
    serve c w = (Return refusal, w')
    ∧ (status refusal = 400 ∨ status refusal = 404)
    ∧ products w' = products w
    ∧ database_json w' = database_json w
    ∧ uploads w' = uploads w ∖ list_to_set (File.filename <$> batch c).
Proof.
  intros Hrej Hnd. destruct (serve_rejected _ _ Hrej) as (refusal & Hst & ->).
  rewrite forEach_unlinkSync; simpl; [|done|].
  - eexists _, _. split; [done|]. split; [done|]. simpl.
    do 2 (split; [done|]). set_solver.
  - apply Forall_forall. intros n Hn. set_solver.
Qed.

Lemma rejected_call_cleans_up_witness :
  rejected (CreateProduct 1700000000005 namelessRequest) shirtWorld
  ∧ NoDup (File.filename
             <$> batch (CreateProduct 1700000000005 namelessRequest))
  ∧ ∃ refusal w',
      serve (CreateProduct 1700000000005 namelessRequest) shirtWorld
      = (Return refusal, w')
      ∧ (status refusal = 400 ∨ status refusal = 404)
      ∧ products w' = products shirtWorld
      ∧ database_json w' = database_json shirtWorld
      ∧ uploads w'
        = uploads shirtWorld
          ∖ list_to_set
              (File.filename
                 <$> batch (CreateProduct 1700000000005 namelessRequest)).
Proof.
  assert (rejected (CreateProduct 1700000000005 namelessRequest) shirtWorld)
    as Hrej by (intros (Hname & _); apply Hname; left; reflexivity).
  assert (NoDup (File.filename
                   <$> batch (CreateProduct 1700000000005 namelessRequest)))
    as Hnd by by_computation.
  split; [exact Hrej|]. split; [exact Hnd|].
  exact (rejected_call_cleans_up _ _ Hrej Hnd).
Defined.

(** X4: when two files of such a call got the same stored name, the
    clean-up throws at the second one and the answer is 500 instead of
    400 or 404; the store and [database.json] are still as they were, no
    file outside the batch was added or removed. *)
Theorem rejected_call_duplicate_names c w :
  rejected c w →
  ¬ NoDup (File.filename <$> batch c) →
  ∃ w',
    serve c w
    = (Return (mkResponse 500 (PError "Internal server error")), w')
    ∧ products w' = products w
    ∧ database_json w' = database_json w
    ∧ uploads w ∖ list_to_set (File.filename <$> batch c) ⊆ uploads w'
    ∧ uploads w' ⊆ uploads w ∪ list_to_set (File.filename <$> batch c).
Proof.
  intros Hrej Hdup.
  pose proof (serve_rejected_frame _ _ Hrej) as Hframe.
  destruct (serve_rejected _ _ Hrej) as (refusal & _ & Hserve).
  destruct (forEach_unlinkSync_throws (File.filename <$> batch c)
    (World (products w)
       (list_to_set (File.filename <$> batch c) ∪ uploads w)
       (database_json w) (dirnameUploads w)) (or_intror Hdup))
    as (w' & Hthrow).
  rewrite Hthrow in Hserve. rewrite Hserve in Hframe. simpl in Hframe.
  destruct Hframe as (Hp & Hd & _ & Hkeep & Hsub). by exists w'.
Qed.

Lemma rejected_call_duplicate_names_witness :
  rejected (CreateProduct 1700000000005 clashRequest) shirtWorld
  ∧ ¬ NoDup (File.filename
               <$> batch (CreateProduct 1700000000005 clashRequest))
  ∧ ∃ w',
      serve (CreateProduct 1700000000005 clashRequest) shirtWorld
      = (Return (mkResponse 500 (PError "Internal server error")), w')
      ∧ products w' = products shirtWorld
      ∧ database_json w' = database_json shirtWorld
      ∧ uploads shirtWorld
        ∖ list_to_set
            (File.filename
               <$> batch (CreateProduct 1700000000005 clashRequest))
        ⊆ uploads w'
      ∧ uploads w'
        ⊆ uploads shirtWorld
          ∪ list_to_set
              (File.filename
                 <$> batch (CreateProduct 1700000000005 clashRequest)).
Proof.
  assert (rejected (CreateProduct 1700000000005 clashRequest) shirtWorld)
    as Hrej by (intros (Hname & _); apply Hname; left; reflexivity).
  assert (¬ NoDup (File.filename
                     <$> batch (CreateProduct 1700000000005 clashRequest)))
    as Hdup by by_computation.
  split; [exact Hrej|]. split; [exact Hdup|].
  exact (rejected_call_duplicate_names _ _ Hrej Hdup).
Defined.

(** ** What a call leaves alone *)

Lemma resolves_elem_of productId w i p :
  resolves productId w i p → productId ∈ ids w.
Proof.
  intros Hres. pose proof (resolves_id _ _ _ _ Hres) as <-.
  destruct Hres as [_ Hp]. unfold ids.
  apply list_elem_of_fmap. exists p. split; [done|].
  by eapply list_elem_of_lookup_2.
Qed.

Lemma resolves_find productId w i p :
  resolves productId w i p → find productId (products w) = Some p.
Proof.
  intros Hres. unfold find. by rewrite (resolves_list_find _ _ _ _ Hres).
Qed.

(** X5: whatever the id and the form, Update keeps the number and the
    order of the records; every record keeps its id and the properties no
    handler writes, no record loses an image (the old list is a prefix of
    the new one), and a record whose id is not the one addressed is left
    exactly as it was. *)
Theorem update_keeps_records productId req w :
  Forall2 (updateKeeps productId)
    (products w) (products (snd (updateProduct productId req w))).
Proof.
  destruct (findIndex_cases productId w) as [Hid|(i & old & Hres)].
  - destruct (serve_rejected_frame (UpdateProduct productId req) w Hid)
      as (Hp & _). simpl in Hp. rewrite Hp.
    apply Forall_Forall2_diag, Forall_forall. intros q _.
    by repeat split.
  - rewrite (updateProduct_resolves _ req _ _ _ Hres). simpl.
    pose proof (resolves_id _ _ _ _ Hres) as Hid.
    destruct Hres as [_ Hold].
    apply Forall2_same_length_lookup. split; [by rewrite length_insert|].
    intros j q q' Hq Hq'. destruct (decide (i = j)) as [->|Hne].
    + rewrite list_lookup_insert_eq in Hq'
        by (by eapply lookup_lt_Some).
      simplify_eq. repeat split; simpl; [by eexists|done].
    + rewrite list_lookup_insert_ne in Hq' by done.
      simplify_eq. by repeat split.
Qed.

(** X6: whatever the form and the files, Create changes or removes no
    stored record and adds at most one, at the end; it removes no file
    from the directory other than under a stored name of its own batch. *)
Theorem create_keeps_records now req w :
  products w `prefix_of` products (snd (createProduct now req w))
  ∧ (length (products (snd (createProduct now req w)))
     ≤ S (length (products w)))%nat
  ∧ uploads w ∖ list_to_set (File.filename <$> files req)
    ⊆ uploads (snd (createProduct now req w)).
Proof.
  destruct (validCreate_cases req) as [Hvalid|Hnot].
  - rewrite (createProduct_valid _ _ _ Hvalid). simpl.
    split; [by eexists|]. split; [|set_solver].
    rewrite length_app. simpl. lia.
  - destruct (serve_rejected_frame (CreateProduct now req) w Hnot)
      as (Hp & _ & _ & Hkeep & _). simpl in *. rewrite Hp.
    split; [done|]. split; [lia|done].
Qed.

Lemma filter_delete_other productId (l : list Product.t) i p :
  l !! i = Some p →
  Product.id p = productId →
  filter (fun q => Product.id q ≠ productId) (delete i l)
  = filter (fun q => Product.id q ≠ productId) l.
Proof.
  intros Hp Hid. revert i Hp.
  induction l as [|a l IH]; intros [|i] Hp; simplify_eq/=.
  - by rewrite filter_cons_False by (by intros H; apply H).
  - rewrite !filter_cons. by rewrite (IH _ Hp).
Qed.

(** X7: whatever the id, Delete removes no record with another id and at
    most one record in all, keeps the order of those that stay, and adds
    no file to the directory. *)
Theorem delete_keeps_other_records productId w :
  filter (fun q => Product.id q ≠ productId)
    (products (snd (deleteProduct productId w)))
  = filter (fun q => Product.id q ≠ productId) (products w)
  ∧ products (snd (deleteProduct productId w)) `sublist_of` products w
  ∧ (length (products w)
     ≤ S (length (products (snd (deleteProduct productId w)))))%nat
  ∧ uploads (snd (deleteProduct productId w)) ⊆ uploads w.
Proof.
  destruct (findIndex_cases productId w) as [Hid|(i & p & Hres)].
  - rewrite (deleteProduct_unknown _ _ Hid). simpl.
    split; [done|]. split; [done|]. split; [lia|done].
  - rewrite (deleteProduct_resolves _ _ _ _ Hres). simpl.
    pose proof (resolves_id _ _ _ _ Hres) as Hid.
    destruct Hres as [_ Hp].
    split; [by apply (filter_delete_other _ _ _ p)|].
    split; [apply sublist_delete|].
    split; [|by destruct (withoutImages_uploads (Product.images p) w)].
    rewrite length_delete by (by eexists).
    apply lookup_lt_Some in Hp. lia.
Qed.

(** ** What the read and the delete routes answer *)

(** X8: Get never changes the world and never answers 500: it answers
    404 exactly when no record carries the id, and otherwise 200 with a
    stored record whose id is the one asked for. *)
Theorem get_answers productId w :
  ∃ r,
    getProduct productId w = (Return r, w)
    ∧ (status r = 404 ↔ productId ∉ ids w)
    ∧ (productId ∈ ids w →
       ∃ p, r = mkResponse 200 (PProduct p)
            ∧ Product.id p = productId ∧ p ∈ products w).
Proof.
  destruct (findIndex_cases productId w) as [Hid|(i & p & Hres)].
  - exists (mkResponse 404 (PError "Product not found")).
    split; [by apply getProduct_unknown, find_None|]. by split.
  - exists (mkResponse 200 (PProduct p)).
    pose proof (resolves_elem_of _ _ _ _ Hres) as Hin.
    split; [by apply getProduct_found, (resolves_find _ _ i)|].
    split; [by split|]. intros _. exists p. split; [done|].
    split; [by eapply resolves_id|].
    destruct Hres as [_ Hp]. by eapply list_elem_of_lookup_2.
Qed.

(** X9: Delete never answers 500, whatever the directory holds: it
    answers 404 exactly when no record carries the id, and then the world
    is as it was; otherwise it answers 200. *)
Theorem delete_answers productId w :
  ∃ r,
    fst (deleteProduct productId w) = Return r
    ∧ (status r = 404 ↔ productId ∉ ids w)
    ∧ (status r = 200 ↔ productId ∈ ids w)
    ∧ (status r = 404 → snd (deleteProduct productId w) = w).
Proof.
  destruct (findIndex_cases productId w) as [Hid|(i & p & Hres)].
  - exists (mkResponse 404 (PError "Product not found")).
    rewrite (deleteProduct_unknown _ _ Hid). simpl.
    split; [done|]. split; [by split|]. by split.
  - exists (mkResponse 200 (PMessage "Product deleted successfully")).
    pose proof (resolves_elem_of _ _ _ _ Hres) as Hin.
    rewrite (deleteProduct_resolves _ _ _ _ Hres). simpl.
    split; [done|]. split; [by split|]. by split.
Qed.

(** ** Create: what is not checked, ids, and undoing it *)

(** X10: Create checks that a price was sent, not that it is a number: a
    complete form whose price text has no numeric prefix is answered 201
    and the record is stored with the price NaN. *)
Theorem create_stores_unparsed_price now req w s :
  validCreate req →
  body req !! "price" = Some s →
  nonNumeric s →
  ∃ p w',
    createProduct now req w = (Return (mkResponse 201 (PProduct p)), w')
    ∧ Product.price p = NaN
    ∧ p ∈ products w'.
Proof.
  intros Hvalid Hprice Hs. eexists _, _.
  split; [by apply createProduct_valid|]. simpl. split.
  - rewrite Hprice. by apply parseFloatString_nonNumeric.
  - set_solver.
Qed.

Lemma create_stores_unparsed_price_witness :
  validCreate wordPriceRequest
  ∧ body wordPriceRequest !! "price" = Some "cheap"
  ∧ nonNumeric "cheap"
  ∧ ∃ p w',
      createProduct 1700000000011 wordPriceRequest shirtWorld
      = (Return (mkResponse 201 (PProduct p)), w')
      ∧ Product.price p = NaN
      ∧ p ∈ products w'.
Proof.
  assert (validCreate wordPriceRequest) as Hvalid by valid_create.
  assert (body wordPriceRequest !! "price" = Some "cheap") as Hprice
    by reflexivity.
  assert (nonNumeric "cheap") as Hs by reflexivity.
  split; [exact Hvalid|]. split; [exact Hprice|]. split; [exact Hs|].
  exact (create_stores_unparsed_price 1700000000011 wordPriceRequest
           shirtWorld "cheap" Hvalid Hprice Hs).
Defined.

(** X11: when the ids of the store are pairwise distinct, they are still
    so after any call, provided a Create reads a clock whose string is
    not an id of the store yet: Update keeps every id, Delete only takes
    one away, and nothing else writes ids. *)
Theorem ids_stay_distinct c w :
  NoDup (ids w) → newId c w → NoDup (ids (snd (serve c w))).
Proof.
  unfold ids. intros Hnd Hnew.
  destruct c as [|productId|now req|productId req|productId]; simpl in *.
  - done.
  - unfold getProduct, bind, getProducts.
    by destruct (find productId (products w)).
  - destruct (validCreate_cases req) as [Hvalid|Hnot].
    + rewrite (createProduct_valid _ _ _ Hvalid). simpl.
      rewrite fmap_app. apply NoDup_app. split; [done|]. split.
      * intros x Hx Hx'. simpl in Hx'. apply list_elem_of_singleton in Hx'.
        by subst.
      * simpl. apply NoDup_singleton.
    + destruct (serve_rejected_frame (CreateProduct now req) w Hnot)
        as (Hp & _). simpl in Hp. by rewrite Hp.
  - destruct (findIndex_cases productId w) as [Hid|(i & old & Hres)].
    + destruct (serve_rejected_frame (UpdateProduct productId req) w Hid)
        as (Hp & _). simpl in Hp. by rewrite Hp.
    + rewrite (updateProduct_resolves _ req _ _ _ Hres). simpl.
      destruct Hres as [_ Hold].
      rewrite list_fmap_insert. simpl.
      rewrite list_insert_id; [done|].
      by rewrite list_lookup_fmap, Hold.
  - destruct (findIndex_cases productId w) as [Hid|(i & p & Hres)].
    + by rewrite (deleteProduct_unknown _ _ Hid).
    + rewrite (deleteProduct_resolves _ _ _ _ Hres). simpl.
      rewrite list_fmap_delete.
      exact (sublist_NoDup _ _ Hnd (sublist_delete _ _)).
Qed.

Lemma ids_stay_distinct_witness :
  NoDup (ids shirtWorld)
  ∧ newId (CreateProduct 1700000000009 scarfRequest) shirtWorld
  ∧ NoDup (ids (snd (serve (CreateProduct 1700000000009 scarfRequest)
                       shirtWorld))).
Proof.
  assert (NoDup (ids shirtWorld)) as Hnd by by_computation.
  assert (newId (CreateProduct 1700000000009 scarfRequest) shirtWorld)
    as Hnew by by_computation.
  split; [exact Hnd|]. split; [exact Hnew|].
  exact (ids_stay_distinct _ _ Hnd Hnew).
Defined.

Lemma resolves_app_new l up dj dn p :
  Product.id p ∉ Product.id <$> l →
  resolves (Product.id p) (World (l ++ [p]) up dj dn) (length l) p.
Proof.
  intros Hnew. split; simpl.
  - unfold findIndex. rewrite list_find_app_r.
    + simpl. by rewrite decide_True.
    + apply list_find_None, Forall_forall. intros q Hq Hid.
      apply Hnew, list_elem_of_fmap. eauto.
  - by rewrite list_lookup_middle.
Qed.

(** X12: Delete undoes Create. In a server that was started in its own
    directory and whose [database.json] holds what [JSON.stringify]
    writes of the store as it is, a valid Create with an id no record
    carries yet and stored names that are distinct and new to the
    directory, followed by Delete of the new id, leaves the world exactly
    as it was before the two calls: the store, the file, the directory. *)
Theorem create_then_delete now req w :
  ownDirectory w →
  inStep w →
  validCreate req →
  toString now ∉ ids w →
  freshBatch (files req) w →
  snd (deleteProduct (toString now) (snd (createProduct now req w))) = w.
Proof.
  unfold ownDirectory, inStep, ids.
  intros Hown Hstep Hvalid Hnew [_ Hfresh].
  rewrite (createProduct_valid _ _ _ Hvalid). simpl.
  rewrite (deleteProduct_resolves (toString now) _ (length (products w))
             (newProduct now req)).
  - simpl. rewrite (delete_middle (products w) []), app_nil_r.
    destruct w as [ps up dj dn]. simpl in *. subst dj dn.
    unfold withoutImages. simpl. f_equal.
    rewrite Forall_forall in Hfresh. set_solver.
  - by apply (resolves_app_new (products w) _ _ _ (newProduct now req)).
Qed.

Lemma create_then_delete_witness :
  ownDirectory shirtWorld
  ∧ inStep shirtWorld
  ∧ validCreate scarfRequest
  ∧ toString 1700000000009 ∉ ids shirtWorld
  ∧ freshBatch (files scarfRequest) shirtWorld
  ∧ snd (deleteProduct (toString 1700000000009)
           (snd (createProduct 1700000000009 scarfRequest shirtWorld)))
    = shirtWorld.
Proof.
  assert (ownDirectory shirtWorld) as Hown by reflexivity.
  assert (inStep shirtWorld) as Hstep by (vm_compute; reflexivity).
  assert (validCreate scarfRequest) as Hvalid by valid_create.
  assert (toString 1700000000009 ∉ ids shirtWorld) as Hnew
    by by_computation.
  assert (freshBatch (files scarfRequest) shirtWorld) as Hfresh
    by by_computation.
  split; [exact Hown|]. split; [exact Hstep|]. split; [exact Hvalid|].
  split; [exact Hnew|]. split; [exact Hfresh|].
  exact (create_then_delete _ _ _ Hown Hstep Hvalid Hnew Hfresh).
Defined.

(** ** Stored names *)

Lemma pretty_N_char_digit d : isDecimalDigit (pretty_N_char d) = true.
Proof. unfold pretty_N_char. by repeat case_match. Qed.

Lemma pretty_N_go_digitsOnly x s :
  digitsOnly s = true → digitsOnly (pretty_N_go x s) = true.
Proof.
  revert s. induction (N.lt_wf_0 x) as [x _ IH]; intros s Hs.
  assert (x = 0 ∨ 0 < x)%N as [->|Hx] by lia.
  - by rewrite pretty_N_go_0.
  - rewrite pretty_N_go_step by done. apply IH.
    + by apply N.div_lt.
    + simpl. by rewrite pretty_N_char_digit.
Qed.

Lemma pretty_digitsOnly (n : N) : digitsOnly (pretty n) = true.
Proof.
  unfold pretty, pretty_N. case_decide; [done|].
  by apply pretty_N_go_digitsOnly.
Qed.

Lemma append_nil_l s : "" +:+ s = s.
Proof. reflexivity. Qed.

Lemma append_cons c s t : String c s +:+ t = String c (s +:+ t).
Proof. reflexivity. Qed.

Lemma append_assoc s t u : (s +:+ t) +:+ u = s +:+ (t +:+ u).
Proof.
  induction s as [|c s IH]; [done|].
  by rewrite !append_cons, IH.
Qed.

(** A run of digits followed by text that does not go on with a digit
    splits in one way only. *)
Lemma digits_split d1 d2 r1 r2 :
  digitsOnly d1 = true → digitsOnly d2 = true →
  noDigitAhead r1 → noDigitAhead r2 →
  d1 +:+ r1 = d2 +:+ r2 → d1 = d2 ∧ r1 = r2.
Proof.
  revert d2. induction d1 as [|c1 d1 IH]; intros [|c2 d2] H1 H2 Hr1 Hr2 E;
    rewrite ?append_nil_l, ?append_cons in E; simpl in *.
  - done.
  - subst r1. simpl in Hr1. apply andb_true_iff in H2 as [H2 _]. congruence.
  - subst r2. simpl in Hr2. apply andb_true_iff in H1 as [H1 _]. congruence.
  - apply andb_true_iff in H1 as [_ H1]. apply andb_true_iff in H2 as [_ H2].
    injection E as -> E. destruct (IH d2 H1 H2 Hr1 Hr2 E) as [-> ->]. done.
Qed.

Lemma isExtname_noDigitAhead e : isExtname e → noDigitAhead e.
Proof. destruct e as [|c e]; [done|]. by intros ->. Qed.

(** X13: two stored names are the same only when the clock reading, the
    random suffix and the extension are all the same: the dash and the dot
    keep the three parts apart. *)
Theorem filename_inj now rnd extname now' rnd' extname' :
  isExtname extname →
  isExtname extname' →
  filename now rnd extname = filename now' rnd' extname' →
  now = now' ∧ rnd = rnd' ∧ extname = extname'.
Proof.
  unfold filename, uniqueSuffix. intros He He' E.
  rewrite !append_assoc in E.
  apply digits_split in E as [Hnow E]; try apply pretty_digitsOnly; try done.
  apply (inj pretty) in Hnow. rewrite !append_cons, !append_nil_l in E.
  injection E as E.
  apply digits_split in E as [Hrnd E];
    try apply pretty_digitsOnly; try by apply isExtname_noDigitAhead.
  by apply (inj pretty) in Hrnd.
Qed.

Lemma filename_inj_witness :
  isExtname ".png"
  ∧ isExtname ".png"
  ∧ filename 1700000000000 42 ".png" = filename 1700000000000 42 ".png"
  ∧ 1700000000000%N = 1700000000000%N ∧ 42%N = 42%N ∧ ".png" = ".png".
Proof.
  assert (isExtname ".png") as He by reflexivity.
  assert (filename 1700000000000 42 ".png"
          = filename 1700000000000 42 ".png") as E by reflexivity.
  split; [exact He|]. split; [exact He|]. split; [exact E|].
  exact (filename_inj _ _ _ _ _ _ He He E).
Defined.

Example filename_sample :
  filename 1700000000000 42 ".png" = "1700000000000-42.png".
Proof. reflexivity. Qed.

(** ** The page *)

Lemma prefix_append_l a b s :
  String.prefix (a +:+ b) s = true → String.prefix a s = true.
Proof.
  revert s. induction a as [|c a IH]; intros s H; [by destruct s|].
  rewrite append_cons in H. destruct s as [|c' s]; [done|].
  simpl in *. destruct (ascii_dec c c'); [by apply IH|done].
Qed.

Lemma contains_prefix pat s :
  String.prefix pat s = true → contains pat s = true.
Proof.
  intros H.
  assert (contains pat s
          = String.prefix pat s
            || match s with
               | String _ r => contains pat r
               | EmptyString => false
               end) as -> by (by destruct s).
  by rewrite H.
Qed.

(** X14: every file type the server filter lets through passes the check
    the page makes when files are picked, so the page never blocks an
    upload the server would take; the page's check is the laxer one, it
    also passes a type that merely contains the word image, which the
    server filter refuses. *)
Theorem page_check_is_laxer :
  (∀ f, fileFilter f = true → pageAccepts (File.mimetype f) = true)
  ∧ pageAccepts (File.mimetype oddTypeFile) = true
  ∧ fileFilter oddTypeFile = false.
Proof.
  split; [|split; reflexivity].
  intros f Hf. unfold fileFilter in Hf. unfold pageAccepts.
  apply contains_prefix. by apply (prefix_append_l "image" "/").
Qed.

Lemma delete_delete_shift {A} (l : list A) (i j : nat) :
  (i ≤ j)%nat → delete j (delete i l) = delete i (delete (S j) l).
Proof.
  revert i j. induction l as [|a l IH]; intros [|i] [|j] Hij;
    simpl; try done; try lia.
  f_equal. apply IH. lia.
Qed.

(** X15: the remove buttons of the edit form keep the position they were
    drawn with. Pressed from the right to the left they remove the two
    images they stand for; pressed from the left to the right, the second
    press removes the right neighbour of its image: positions [i] and
    [j + 1] go, and the image at [j] is still in the kept list. *)
Theorem remove_buttons_shift images (i j : nat) :
  (i < j)%nat →
  keptAfter images [j; i] = delete i (delete j images)
  ∧ keptAfter images [i; j] = delete i (delete (S j) images)
  ∧ keptAfter images [i; j] !! (j - 1) = images !! j.
Proof.
  intros Hij. unfold keptAfter, removeClick. simpl.
  split; [done|].
  rewrite delete_delete_shift by lia. split; [done|].
  rewrite list_lookup_delete_ge by lia.
  replace (S (j - 1)) with j by lia.
  by rewrite list_lookup_delete_lt by lia.
Qed.

Lemma remove_buttons_shift_witness :
  (0 < 1)%nat
  ∧ keptAfter ["a.png"; "b.png"; "c.png"] [1; 0]
    = delete 0 (delete 1 ["a.png"; "b.png"; "c.png"])
  ∧ keptAfter ["a.png"; "b.png"; "c.png"] [0; 1]
    = delete 0 (delete 2 ["a.png"; "b.png"; "c.png"])
  ∧ keptAfter ["a.png"; "b.png"; "c.png"] [0; 1] !! (1 - 1)
    = ["a.png"; "b.png"; "c.png"] !! 1.
Proof.
  assert (0 < 1)%nat as Hij by lia.
  split; [exact Hij|].
  exact (remove_buttons_shift ["a.png"; "b.png"; "c.png"] 0 1 Hij).
Defined.

Example remove_buttons_sample :
  keptAfter ["a.png"; "b.png"; "c.png"] [0; 1] = ["b.png"].
Proof. reflexivity. Qed.

(** ** Whole-number prices *)



















(** Above [2 ^ 53] the stored price is the nearest double, and a value
    of [2 ^ 1024] or more is stored as Infinity. *)
Example parseFloat_rounds :
  parseFloatString "9007199254740993" = Finite false 9007199254740992 0
  ∧ parseFloatString "0.1"
    = Finite false 1000000000000000055511151231257827021181583404541015625
        (-55)
  ∧ parseFloatString "1e400" = Infinity false
  ∧ parseFloatString "1e-400" = Finite false 0 0.
Proof. repeat split; vm_compute; reflexivity. Qed.

(** Leading white space of any kind is skipped: a no-break space and
    then 5 reads as 5. *)
Example parseFloat_nbsp : parseFloatString nbspFive = Finite false 5 0.
Proof. vm_compute. reflexivity. Qed.

(** ** What the file holds

    After an Update that sent neither a name nor a usable price, the
    record in [database.json] has no name and the price null, while the
    store holds NaN. *)
Example saveDatabase_writes_null :
  database_json (snd (updateProduct "1700000000000" blankRequest shirtWorld))
  = [Json.mk "1700000000000" None JNull ""
       ["1700000000000-1.png"; "1700000000000-2.png"] ∅]
  ∧ Product.price <$> products
      (snd (updateProduct "1700000000000" blankRequest shirtWorld))
    = [NaN].
Proof. split; vm_compute; reflexivity. Qed.
